(** * Reflections: the diary-mood application

    A shallow embedding of the four pieces of the application that carry
    behaviour worth stating:

    - [lib/spotify.ts]: the tables and the two lookups of [SpotifyService]
      ([getGenresBySentiment], [getAudioFeaturesBySentiment]), the request
      parameters [getRecommendations] builds from them, and [createPlaylist];
    - [lib/sentiment.ts]: [analyzeSentiment];
    - [app/api/entries/route.ts]: the [POST] and [GET] handlers.

    Numbers written as decimal literals in the source (0.7, 0.5, ...) are only
    stored and copied, never computed with; they are kept as the rationals the
    literals denote. *)

From Stdlib Require Import QArith.
From stdpp Require Import gmap strings list fin_maps sorting.

Local Open Scope string_scope.
Local Open Scope list_scope.

(** ** The fragment of JavaScript the source relies on *)

Module Js.

(** Exceptions the modelled code can meet. *)
Inductive error : Type :=
| TypeError
| SyntaxError
| NetworkError
| HttpError (status : nat).

(** A computation either completes with a value or throws. *)
Inductive result (A : Type) : Type :=
| Ok (a : A)
| Throw (e : error).
Arguments Ok {A} a.
Arguments Throw {A} e.

#[global] Instance result_ret : MRet result := fun _ a => Ok a.
#[global] Instance result_bind : MBind result := fun _ _ f r =>
  match r with
  | Ok a => f a
  | Throw e => Throw e
  end.

(** [try { body } catch { handler }] where the handler ignores the error. *)
Definition try_catch {A} (body : result A) (handler : A) : A :=
  match body with
  | Ok a => a
  | Throw _ => handler
  end.

(** The names every object literal inherits from [Object.prototype]. Each is
    bound to a function, except [__proto__], whose getter yields the
    prototype object itself. *)
Definition objectPrototypeKeys : list string :=
  [ "constructor"; "__defineGetter__"; "__defineSetter__"; "hasOwnProperty";
    "__lookupGetter__"; "__lookupSetter__"; "isPrototypeOf";
    "propertyIsEnumerable"; "toString"; "valueOf"; "__proto__";
    "toLocaleString" ].

(** What reading [o[k]] on an object literal [o] gives: the own property,
    else the member of [Object.prototype] of that name, else [undefined]. *)
Inductive property (A : Type) : Type :=
| Undefined
| Own (a : A)
| Inherited (k : string).
Arguments Undefined {A}.
Arguments Own {A} a.
Arguments Inherited {A} k.

Definition get {A} (o : gmap string A) (k : string) : property A :=
  match o !! k with
  | Some a => Own a
  | None => if decide (k ∈ objectPrototypeKeys) then Inherited k else Undefined
  end.

(** [p || q]. Arrays, objects and functions are all truthy: only
    [undefined] lets the right operand through. *)
Definition or_else {A} (p q : property A) : property A :=
  match p with
  | Undefined => q
  | _ => p
  end.

(** [[...p]] inside an array literal: [p] has to be iterable. Neither a
    function nor [Object.prototype] is. *)
Definition spreadArray {A} (p : property (list A)) : result (list A) :=
  match p with
  | Own l => Ok l
  | Inherited _ => Throw TypeError
  | Undefined => Throw TypeError
  end.

(** [{...p}] inside an object literal copies the own enumerable properties
    of [p]; a function, [Object.prototype] and [undefined] have none. *)
Definition spreadObject {A} (p : property (gmap string A)) : gmap string A :=
  match p with
  | Own o => o
  | Inherited _ => ∅
  | Undefined => ∅
  end.

(** An argument of declared type [string] that the caller may have left
    out; used as a property key, [undefined] reads as the name below. *)
Inductive arg : Type :=
| Missing
| Str (s : string).

Definition toPropertyKey (a : arg) : string :=
  match a with
  | Missing => "undefined"
  | Str s => s
  end.

(** [Array.prototype.slice(start, end)] for indices that are not negative. *)
Definition slice {A} (start end_ : nat) (l : list A) : list A :=
  take (end_ - start) (drop start l).

(** [Array.prototype.join(sep)] on an array of strings. *)
Fixpoint join (sep : string) (l : list string) : string :=
  match l with
  | [] => ""
  | [x] => x
  | x :: l' => x +:+ sep +:+ join sep l'
  end.

(** [x.toString()] where [x] was read from a record of numbers: a
    [TypeError] when the field is absent. The number stands for its text. *)
Definition numberToString (x : option Q) : result Q :=
  match x with
  | Some q => Ok q
  | None => Throw TypeError
  end.

(** A parsed JSON document. An object is the list of its properties. *)
#[local] Set Warnings "-register-all".
Inductive json : Type :=
| JNull
| JBool (b : bool)
| JNumber (q : Q)
| JString (s : string)
| JArray (items : list json)
| JObject (fields : list (string * json)).

Fixpoint assoc (k : string) (fields : list (string * json)) : option json :=
  match fields with
  | [] => None
  | (k', v) :: fields' => if decide (k = k') then Some v else assoc k fields'
  end.

(** [v.id] on a value that came out of [JSON.parse]: a [TypeError] on
    [null]; [undefined] on a value that has no such property. *)
Definition idOf (v : json) : result (option json) :=
  match v with
  | JNull => Throw TypeError
  | JObject fields => Ok (assoc "id" fields)
  | _ => Ok None
  end.

(** What [fetch] resolves to: the [ok] flag, the status, and what
    [response.json()] gives. *)
Record response (A : Type) : Type := mkResponse {
  ok : bool;
  status : nat;
  body : result A
}.
Arguments mkResponse {A} ok status body.
Arguments ok {A} r.
Arguments status {A} r.
Arguments body {A} r.

End Js.

Import Js.

(** ** [lib/spotify.ts] *)

Module Spotify.

(** *** Genre seeds *)

Definition genreRows : list (string * list string) :=
  [ ("positive", ["pop"; "indie"; "electronic"; "dance"; "funk"]);
    ("negative", ["indie"; "alternative"; "blues"; "folk"; "ambient"]);
    ("neutral",  ["chill"; "acoustic"; "indie-folk"; "ambient"; "jazz"]) ].

Definition genreMap : gmap string (list string) := list_to_map genreRows.

Definition moodGenreRows : list (string * list string) :=
  [ ("happy",      ["pop"; "dance"; "funk"; "disco"]);
    ("energetic",  ["electronic"; "dance"; "rock"; "pop"]);
    ("calm",       ["ambient"; "chill"; "acoustic"; "classical"]);
    ("sad",        ["blues"; "indie"; "folk"; "alternative"]);
    ("anxious",    ["ambient"; "chill"; "classical"]);
    ("excited",    ["pop"; "electronic"; "dance"]);
    ("melancholy", ["indie"; "alternative"; "folk"]);
    ("peaceful",   ["ambient"; "classical"; "acoustic"]);
    ("angry",      ["rock"; "alternative"; "metal"]);
    ("content",    ["indie"; "folk"; "acoustic"]) ].

Definition moodGenres : gmap string (list string) := list_to_map moodGenreRows.

(** [return [...(genreMap[sentiment] || genreMap.neutral),
             ...(moodGenres[mood] || [])]] *)
Definition getGenresBySentiment (sentiment mood : arg) : result (list string) :=
  base ← spreadArray (or_else (get genreMap (toPropertyKey sentiment))
                              (get genreMap "neutral"));
  extra ← spreadArray (or_else (get moodGenres (toPropertyKey mood)) (Own []));
  mret (base ++ extra).

(** *** Audio features *)

Definition features (valence energy danceability : Q) : gmap string Q :=
  list_to_map [ ("valence", valence); ("energy", energy);
                ("danceability", danceability) ].

Definition baseFeatureRows : list (string * gmap string Q) :=
  [ ("positive", features (7 # 10) (6 # 10) (6 # 10));
    ("negative", features (3 # 10) (4 # 10) (4 # 10));
    ("neutral",  features (5 # 10) (5 # 10) (5 # 10)) ].

Definition baseFeatures : gmap string (gmap string Q) :=
  list_to_map baseFeatureRows.

Definition moodAdjustmentRows : list (string * gmap string Q) :=
  [ ("energetic", list_to_map [("energy", 8 # 10); ("danceability", 7 # 10)]);
    ("calm",      list_to_map [("energy", 3 # 10); ("valence", 6 # 10)]);
    ("excited",   list_to_map [("energy", 9 # 10); ("valence", 8 # 10);
                               ("danceability", 8 # 10)]);
    ("sad",       list_to_map [("valence", 2 # 10); ("energy", 3 # 10)]);
    ("peaceful",  list_to_map [("valence", 7 # 10); ("energy", 2 # 10)]) ].

Definition moodAdjustments : gmap string (gmap string Q) :=
  list_to_map moodAdjustmentRows.

(** [const base = baseFeatures[sentiment] || baseFeatures.neutral
    const adjustments = moodAdjustments[mood] || {}
    return { ...base, ...adjustments }]

    In an object literal a later spread overwrites an earlier one field by
    field, which is the left-biased union with the later operand first. *)
Definition getAudioFeaturesBySentiment (sentiment mood : arg) : gmap string Q :=
  let base := or_else (get baseFeatures (toPropertyKey sentiment))
                      (get baseFeatures "neutral") in
  let adjustments := or_else (get moodAdjustments (toPropertyKey mood)) (Own ∅) in
  spreadObject adjustments ∪ spreadObject base.

(** *** The recommendation query *)

(** The fields handed to [URLSearchParams]. [seed_genres] holds the sliced
    array, whose [join(',')] is the parameter's text ([seed_genres_text]). *)
Record Params : Type := mkParams {
  seed_genres : list string;
  target_valence : Q;
  target_energy : Q;
  target_danceability : Q;
  limit : string
}.

Definition seed_genres_text (p : Params) : string := join "," (seed_genres p).

(** The first statements of [getRecommendations], up to the construction of
    [params]: the mapping from (sentiment, mood) to the query. *)
Definition recommendationParams (sentiment mood : arg) : result Params :=
  genres ← getGenresBySentiment sentiment mood;
  let features := getAudioFeaturesBySentiment sentiment mood in
  valence ← numberToString (features !! "valence");
  energy ← numberToString (features !! "energy");
  danceability ← numberToString (features !! "danceability");
  mret (mkParams (slice 0 3 genres) valence energy danceability "10").

Record SpotifyTrack : Type := mkTrack {
  id : string;
  name : string;
  artists : list string;
  external_url : string;
  preview_url : option string
}.

(** [getRecommendations]; [fetch] stands for the recommendations endpoint,
    and the resolved body for [data.tracks]. *)
Definition getRecommendations
    (fetch : Params → result (response (list SpotifyTrack)))
    (sentiment mood : arg) : list SpotifyTrack :=
  try_catch
    (params ← recommendationParams sentiment mood;
     response ← fetch params;
     if negb (ok response) then Throw (HttpError (status response))
     else body response)
    [].

(** *** Playlists *)

Inductive method : Type := Get | Post | Put | Delete.

Inductive endpoint : Type :=
| Me                                          (* /v1/me *)
| UserPlaylists (userId : option json)        (* /v1/users/${user.id}/playlists *)
| PlaylistTracks (playlistId : option json).  (* /v1/playlists/${playlist.id}/tracks *)

Inductive payload : Type :=
| NoBody
| NewPlaylist (name description : string) (public : bool)
| AddTracks (uris : list string).

Record request : Type := mkRequest {
  req_method : method;
  req_endpoint : endpoint;
  req_payload : payload
}.

(** The calls of [createPlaylist] run one after the other against the
    service; the log keeps the requests issued so far. *)
Definition io (A : Type) : Type := list request → list request * result A.

#[global] Instance io_ret : MRet io := fun _ a log => (log, Ok a).
#[global] Instance io_bind : MBind io := fun _ _ f m log =>
  match m log with
  | (log', Ok a) => f a log'
  | (log', Throw e) => (log', Throw e)
  end.

Definition lift {A} (r : result A) : io A := fun log => (log, r).

Definition call (service : request → result (response json)) (r : request)
    : io (response json) :=
  fun log => (log ++ [r], service r).

Definition catch {A} (body : io A) (handler : A) : list request → list request * A :=
  fun log =>
    match body log with
    | (log', Ok a) => (log', a)
    | (log', Throw _) => (log', handler)
    end.

(** A call to the service fails when [fetch] rejects or the response is
    not [ok]. *)
Definition failed (outcome : result (response json)) : Prop :=
  match outcome with
  | Throw _ => True
  | Ok r => ok r = false
  end.

Definition meRequest : request := mkRequest Get Me NoBody.

Definition newPlaylistRequest (userId : option json) (name : string) : request :=
  mkRequest Post (UserPlaylists userId)
    (NewPlaylist name "Generated from your diary mood entries" false).

Definition addTracksRequest (playlistId : option json) (trackIds : list string)
    : request :=
  mkRequest Post (PlaylistTracks playlistId)
    (AddTracks (map (fun id => "spotify:track:" +:+ id) trackIds)).

(** [createPlaylist]; the result [JNull] is the [null] of the source. *)
Definition createPlaylist (service : request → result (response json))
    (name : string) (trackIds : list string) : list request * json :=
  catch
    (userResponse ← call service meRequest;
     if negb (ok userResponse) then mret JNull else
     user ← lift (body userResponse);
     userId ← lift (idOf user);
     playlistResponse ← call service (newPlaylistRequest userId name);
     if negb (ok playlistResponse) then mret JNull else
     playlist ← lift (body playlistResponse);
     _ ← (if bool_decide (0 < length trackIds)%nat then
            playlistId ← lift (idOf playlist);
            _ ← call service (addTracksRequest playlistId trackIds);
            mret tt
          else mret tt);
     mret playlist)
    JNull [].

End Spotify.

Import Spotify.

(** ** [lib/sentiment.ts] *)

Module Sentiment.

(** The part of a chat completion the code reads:
    [response.choices[0].message.content]. The text is a string or [null];
    a response that is not well formed may come without choices, or with a
    choice that has no message. *)
Record Message : Type := mkMessage { content : option string }.
Record Choice : Type := mkChoice { message : option Message }.
Record ChatCompletion : Type := mkCompletion { choices : list Choice }.

(** The request handed to [openai.chat.completions.create]; the system
    prompt is a constant of the source and is left out. *)
Record ChatRequest : Type := mkChatRequest {
  model : string;
  user_content : string;
  json_object_format : bool;
  temperature : Q
}.

(** [response.choices[0].message], as far as [.content] can be read off it:
    reading [message] off a missing choice, or [content] off a missing
    message, is a [TypeError]. *)
Definition firstMessage (response : ChatCompletion) : result Message :=
  match choices response with
  | [] => Throw TypeError
  | choice :: _ =>
      match message choice with
      | None => Throw TypeError
      | Some m => Ok m
      end
  end.

(** [content || '{}']: [null] and the empty string are falsy. *)
Definition contentOrEmptyObject (m : Message) : string :=
  match content m with
  | None => "{}"
  | Some "" => "{}"
  | Some text => text
  end.

Definition neutralResult : json :=
  JObject [ ("sentiment", JString "neutral");
            ("confidence", JNumber (5 # 10));
            ("mood", JString "calm") ].

Section analyzeSentiment.

(** The classifier client and the JSON parser of the runtime. *)
Variable create : ChatRequest → result ChatCompletion.
Variable JSON_parse : string → result json.

(** The body of the [try] block. *)
Definition classify (text : string) : result json :=
  response ← create (mkChatRequest "gpt-3.5-turbo" text true (3 # 10));
  message ← firstMessage response;
  JSON_parse (contentOrEmptyObject message).

Definition analyzeSentiment (text : string) : json :=
  try_catch (classify text) neutralResult.

(** The ways the classifier call can fail: the request is rejected (network
    or service error), the response carries no message to read, or the
    message text is not JSON. *)
Inductive classifierFails (text : string) : Prop :=
| CallRejected e :
    create (mkChatRequest "gpt-3.5-turbo" text true (3 # 10)) = Throw e →
    classifierFails text
| MalformedResponse response e :
    create (mkChatRequest "gpt-3.5-turbo" text true (3 # 10)) = Ok response →
    firstMessage response = Throw e →
    classifierFails text
| ParseError response message e :
    create (mkChatRequest "gpt-3.5-turbo" text true (3 # 10)) = Ok response →
    firstMessage response = Ok message →
    JSON_parse (contentOrEmptyObject message) = Throw e →
    classifierFails text.

End analyzeSentiment.

End Sentiment.

(** ** [app/api/entries/route.ts] *)

Module Entries.

(** Rows of the [User] and [Entry] models of the schema, with the columns
    the handlers touch. Timestamps are milliseconds. *)
Record User : Type := mkUser {
  user_id : string;
  user_email : option string
}.

Record Entry : Type := mkEntry {
  entry_id : string;
  userId : string;
  content : string;
  sentiment : option string;
  confidence : option Q;
  mood : option string;
  date : Z;
  songId : option string;
  songName : option string;
  artistName : option string;
  songUrl : option string;
  createdAt : Z;
  updatedAt : Z
}.

(** The database; a client call rejects when the store cannot be reached. *)
Record Store : Type := mkStore {
  reachable : bool;
  users : list User;
  entries : list Entry
}.

(** [prisma.user.findUnique({ where: { email } })] *)
Definition findUniqueUser (db : Store) (email : string) : result (option User) :=
  if reachable db
  then Ok (List.find (fun u => bool_decide (user_email u = Some email)) (users db))
  else Throw NetworkError.

(** [orderBy: { date: 'desc' }] *)
Definition newerFirst (a b : Entry) : Prop := (date b ≤ date a)%Z.

#[global] Instance newerFirst_dec a b : Decision (newerFirst a b) :=
  Z_le_dec (date b) (date a).

(** [prisma.entry.findMany({ where: { userId }, orderBy: { date: 'desc' },
    take })] *)
Definition findManyEntries (db : Store) (owner : string) (take_ : nat)
    : result (list Entry) :=
  if reachable db
  then Ok (take take_
             (merge_sort newerFirst
                (filter (fun e => userId e = owner) (entries db))))
  else Throw NetworkError.

(** The request body of [POST]. *)
Record EntryData : Type := mkEntryData {
  d_content : string;
  d_sentiment : option string;
  d_confidence : option Q;
  d_mood : option string;
  d_songId : option string;
  d_songName : option string;
  d_artistName : option string;
  d_songUrl : option string
}.

(** [prisma.entry.create({ data })]: the columns the caller leaves out
    ([id], [date], [createdAt], [updatedAt]) take their defaults, a fresh
    identifier and the time of the insert. *)
Definition createEntry (db : Store) (fresh : string) (now : Z) (owner : string)
    (d : EntryData) : result (Entry * Store) :=
  if reachable db
  then
    let e := mkEntry fresh owner (d_content d) (d_sentiment d) (d_confidence d)
                     (d_mood d) now (d_songId d) (d_songName d)
                     (d_artistName d) (d_songUrl d) now now in
    Ok (e, mkStore (reachable db) (users db) (entries db ++ [e]))
  else Throw NetworkError.

(** [getServerSession(authOptions)] and the test [session?.user?.email]. *)
Record SessionUser : Type := mkSessionUser { email : option string }.
Record Session : Type := mkSession { user : option SessionUser }.

Definition sessionEmail (session : option Session) : option string :=
  match session with
  | Some {| user := Some {| email := Some e |} |} =>
      if decide (e = "") then None else Some e
  | _ => None
  end.

Inductive reply : Type :=
| Json (rows : list Entry)                  (* NextResponse.json(entries) *)
| JsonEntry (row : Entry)                   (* NextResponse.json(entry) *)
| Failure (message : string) (status : nat).

Definition GET (session : option Session) (db : Store) : reply :=
  try_catch
    (match sessionEmail session with
     | None => mret (Failure "Unauthorized" 401)
     | Some email =>
         user ← findUniqueUser db email;
         match user with
         | None => mret (Failure "User not found" 404)
         | Some user =>
             entries ← findManyEntries db (user_id user) 50;
             mret (Json entries)
         end
     end)
    (Failure "Failed to get entries" 500).

Definition POST (session : option Session) (requestBody : result EntryData)
    (fresh : string) (now : Z) (db : Store) : reply * Store :=
  try_catch
    (match sessionEmail session with
     | None => mret (Failure "Unauthorized" 401, db)
     | Some email =>
         d ← requestBody;
         user ← findUniqueUser db email;
         match user with
         | None => mret (Failure "User not found" 404, db)
         | Some user =>
             created ← createEntry db fresh now (user_id user) d;
             mret (JsonEntry created.1, created.2)
         end
     end)
    (Failure "Failed to create entry" 500, db).

(** Every stored entry carries the time of its insert in [date]. *)
Definition stamped (db : Store) : Prop :=
  Forall (fun e => date e = createdAt e) (entries db).

End Entries.

(** ** The mapper as the specification words it

    [mapToRecommendationQuery] looks the sentiment up among the recognised
    ones and falls back to the neutral row, gives an unrecognised or absent
    mood no contribution, and never fails. *)

Module MoodMusicMapper.

(** The two fixed enumerations. *)
Definition sentimentLabels : list string := ["positive"; "negative"; "neutral"].

Definition moodLabels : list string :=
  [ "happy"; "sad"; "energetic"; "calm"; "anxious"; "excited"; "melancholy";
    "peaceful"; "angry"; "content" ].

(** A label is recognised when the table has a row of that name. *)
Definition recognised {A} (table : gmap string A) (a : arg) : option A :=
  match a with
  | Str k => table !! k
  | Missing => None
  end.

Definition neutralGenres : list string := default [] (genreMap !! "neutral").
Definition neutralFeatures : gmap string Q := default ∅ (baseFeatures !! "neutral").

Definition baseGenres (sentiment : arg) : list string :=
  default neutralGenres (recognised genreMap sentiment).

Definition moodGenreList (mood : arg) : list string :=
  default [] (recognised moodGenres mood).

Definition baseTriple (sentiment : arg) : gmap string Q :=
  default neutralFeatures (recognised baseFeatures sentiment).

Definition overrides (mood : arg) : gmap string Q :=
  default ∅ (recognised moodAdjustments mood).

(** Override wins per field; a field the mood does not list keeps the base. *)
Definition overlay (base adj : gmap string Q) (field : string) : option Q :=
  match adj !! field with
  | Some v => Some v
  | None => base !! field
  end.

(** Removal of duplicates that keeps every first occurrence in place. *)
Fixpoint dedup (l : list string) : list string :=
  match l with
  | [] => []
  | x :: l' => x :: filter (λ y, y ≠ x) (dedup l')
  end.

Definition seedSet (sentiment mood : arg) : list string :=
  take 3 (baseGenres sentiment ++ moodGenreList mood).

Definition dedupedSeedSet (sentiment mood : arg) : list string :=
  take 3 (dedup (baseGenres sentiment ++ moodGenreList mood)).

Definition mapToRecommendationQuery (sentiment mood : arg) : Params :=
  let triple := overlay (baseTriple sentiment) (overrides mood) in
  mkParams (seedSet sentiment mood)
           (default 0%Q (triple "valence"))
           (default 0%Q (triple "energy"))
           (default 0%Q (triple "danceability"))
           "10".

End MoodMusicMapper.

Import MoodMusicMapper.

Definition featureNames : list string := ["valence"; "energy"; "danceability"].

(** The three numeric targets of a query, by field name. *)
Definition target (p : Params) (field : string) : option Q :=
  if decide (field = "valence") then Some (target_valence p)
  else if decide (field = "energy") then Some (target_energy p)
  else if decide (field = "danceability") then Some (target_danceability p)
  else None.

Definition inUnitInterval (q : Q) : Prop := (0 <= q)%Q ∧ (q <= 1)%Q.

(** ** More of the runtime: text and parsed values *)

Module Text.

(** The characters of a string stand for code units below 256. Of these,
    [String.prototype.trim] strips the tab, the line feed, the vertical tab,
    the form feed, the carriage return, the space and the no-break space. *)
Definition isWhiteSpace (c : Ascii.ascii) : bool :=
  let n := Ascii.nat_of_ascii c in
  bool_decide (9 ≤ n ≤ 13)%nat || bool_decide (n = 32%nat)
  || bool_decide (n = 160%nat).

Fixpoint dropWhile (p : Ascii.ascii → bool) (l : list Ascii.ascii) : list Ascii.ascii :=
  match l with
  | [] => []
  | c :: l' => if p c then dropWhile p l' else l
  end.

Definition trimList (l : list Ascii.ascii) : list Ascii.ascii :=
  reverse (dropWhile isWhiteSpace (reverse (dropWhile isWhiteSpace l))).

(** [s.trim()] *)
Definition trim (s : string) : string :=
  String.string_of_list_ascii (trimList (String.list_ascii_of_string s)).

(** [!s.trim()], which is also [s.trim().length === 0]. *)
Definition blank (s : string) : bool := bool_decide (String.length (trim s) = 0%nat).

End Text.

Module Values.

(** [v[k]] for a key that is no inherited name, on a value that came out of
    [JSON.parse]; also what the pattern [const { k } = v] binds. Reading off
    [null] is a [TypeError]. *)
Definition member (k : string) (v : json) : result (option json) :=
  match v with
  | JNull => Throw TypeError
  | JObject fields => Ok (assoc k fields)
  | _ => Ok None
  end.

(** Truthiness of a parsed value or [undefined]. *)
Definition truthy (v : option json) : bool :=
  match v with
  | None => false
  | Some JNull => false
  | Some (JBool b) => b
  | Some (JNumber q) => negb (Qeq_bool q 0)
  | Some (JString s) => negb (bool_decide (s = ""))
  | Some (JArray _) => true
  | Some (JObject _) => true
  end.

Section toText.

(** [Number.prototype.toString], left to the runtime. *)
Variable numberText : Q → string.

(** [String(v)] for a parsed value, which is how a value used as a property
    key is read. An array joins the texts of its items, [null] items giving
    nothing. A parsed object holds no function: with an own [toString] it has
    no callable conversion left ([valueOf] is inherited or not callable
    either, and returns no primitive) and the conversion is a [TypeError];
    without one, the inherited [toString] answers. *)
Fixpoint toText (v : json) : result string :=
  match v with
  | JNull => Ok "null"
  | JBool true => Ok "true"
  | JBool false => Ok "false"
  | JNumber q => Ok (numberText q)
  | JString s => Ok s
  | JArray items =>
      texts ←
        (fix itemTexts (items : list json) : result (list string) :=
           match items with
           | [] => Ok []
           | item :: rest =>
               t ← match item with
                   | JNull => Ok ""
                   | _ => toText item
                   end;
               ts ← itemTexts rest;
               Ok (t :: ts)
           end) items;
      Ok (join "," texts)
  | JObject fields =>
      match assoc "toString" fields with
      | Some _ => Throw TypeError
      | None => Ok "[object Object]"
      end
  end.

(** A value handed to a parameter declared [string], as the lookups of
    [SpotifyService] read it. *)
Definition toArg (v : option json) : result arg :=
  match v with
  | None => Ok Missing
  | Some v => t ← toText v; Ok (Str t)
  end.

End toText.

Definition errorBody (message : string) : json :=
  JObject [("error", JString message)].

End Values.

(** ** [app/api/sentiment/route.ts] *)

Module SentimentRoute.

Import Text Values.

Inductive reply : Type :=
| Respond (status : nat) (body : json).

Section POST.

Variable create : Sentiment.ChatRequest → result Sentiment.ChatCompletion.
Variable JSON_parse : string → result json.

(** [session] is what [getServerSession] found, [requestBody] what
    [request.json()] gives. [text.trim] is no function unless [text] is a
    string. *)
Definition POST (session : option Entries.Session) (requestBody : result json)
    : reply :=
  try_catch
    (match session with
     | None => mret (Respond 401 (errorBody "Unauthorized"))
     | Some _ =>
         body ← requestBody;
         text ← member "text" body;
         if negb (truthy text)
         then mret (Respond 400 (errorBody "Text is required"))
         else
           match text with
           | Some (JString s) =>
               if bool_decide (String.length (trim s) = 0%nat)
               then mret (Respond 400 (errorBody "Text is required"))
               else mret (Respond 200 (Sentiment.analyzeSentiment create JSON_parse s))
           | _ => Throw TypeError
           end
     end)
    (Respond 500 (errorBody "Failed to analyze sentiment")).

End POST.

End SentimentRoute.

(** ** [app/api/spotify/recommendations/route.ts] *)

Module RecommendationsRoute.

Import Values.

(** The session with the field the [session] callback adds. *)
Record Session : Type := mkSession {
  user : option Entries.SessionUser;
  accessToken : option string
}.

(** [session?.accessToken], falsy when absent or empty. *)
Definition sessionToken (session : option Session) : option string :=
  match session with
  | Some {| accessToken := Some t |} => if decide (t = "") then None else Some t
  | _ => None
  end.

(** [NextResponse.json({ tracks: recommendations })]: a value that is
    [undefined] leaves the object without a [tracks] member. *)
Inductive reply : Type :=
| Tracks (tracks : option json)
| Failure (message : string) (status : nat).

Section POST.

Variable numberText : Q → string.

(** The recommendations endpoint of the service, as reached with a given
    bearer token; the body is what [response.json()] gives. *)
Variable spotify : string → Params → result (response json).

(** [getRecommendations] as the route reaches it: the two labels are
    whatever the request body held, and the answer of the service is read
    without a check, so that [data.tracks] is any value or none. The labels
    are turned into property keys inside the [try] block. *)
Definition getRecommendationsUnchecked (token : string)
    (sentiment mood : option json) : option json :=
  try_catch
    (sentiment ← toArg numberText sentiment;
     mood ← toArg numberText mood;
     params ← recommendationParams sentiment mood;
     response ← spotify token params;
     if negb (ok response) then Throw (HttpError (status response))
     else
       data ← Js.body response;
       member "tracks" data)
    (Some (JArray [])).

Definition POST (session : option Session) (requestBody : result json) : reply :=
  try_catch
    (match sessionToken session with
     | None => mret (Failure "Unauthorized" 401)
     | Some token =>
         body ← requestBody;
         sentiment ← member "sentiment" body;
         mood ← member "mood" body;
         mret (Tracks (getRecommendationsUnchecked token sentiment mood))
     end)
    (Failure "Failed to get recommendations" 500).

End POST.

End RecommendationsRoute.

(** ** [lib/auth.ts]: the two callbacks *)

Module Auth.

(** The token and the session are plain objects; [accessToken] and
    [refreshToken] are no inherited names, so reading them is the lookup. A
    property assigned [undefined] reads like one that is absent. *)
Definition assign (k : string) (v : option json) (o : gmap string json)
    : gmap string json :=
  match v with
  | Some x => <[k:=x]> o
  | None => delete k o
  end.

(** The fields of the provider account the callback reads. *)
Record Account : Type := mkAccount {
  access_token : option string;
  refresh_token : option string
}.

(** [async jwt({ token, account })] *)
Definition jwt (token : gmap string json) (account : option Account)
    : gmap string json :=
  match account with
  | Some a =>
      assign "refreshToken" (JString <$> refresh_token a)
        (assign "accessToken" (JString <$> access_token a) token)
  | None => token
  end.

(** [async session({ session, token })] *)
Definition session (session token : gmap string json) : gmap string json :=
  assign "accessToken" (token !! "accessToken") session.

End Auth.

(** ** [components/DiaryEntry.tsx]: the two handlers *)

Module DiaryEntryForm.

Import Text.

Record SentimentResult : Type := mkSentimentResult {
  sentiment : string;
  confidence : Q;
  mood : string;
  explanation : option string
}.

(** The six state variables of the component. *)
Record FormState : Type := mkFormState {
  entry : string;
  isAnalyzing : bool;
  analysis : option SentimentResult;      (* [sentiment] in the source *)
  recommendations : list SpotifyTrack;
  selectedSong : option SpotifyTrack;
  isSaving : bool
}.

(** The requests the handlers send to the application's own endpoints. *)
Inductive call : Type :=
| PostSentiment (text : string)
| PostRecommendations (sentiment mood : string)
| PostEntry (data : Entries.EntryData).

(** What the three endpoints answer, taken to have the shapes the component
    declares; the body of the recommendations response is its [tracks]
    field, which may be missing. *)
Record Api : Type := mkApi {
  sentimentEndpoint : string → result (response SentimentResult);
  recommendationsEndpoint :
    string → string → result (response (option (list SpotifyTrack)));
  entriesEndpoint : Entries.EntryData → result (response unit)
}.

(** A handler runs over the state variables and the log of requests sent;
    what was set before an exception stays set. *)
Definition world : Type := FormState * list call.
Definition act (A : Type) : Type := world → world * result A.

#[global] Instance act_ret : MRet act := fun _ a w => (w, Ok a).
#[global] Instance act_bind : MBind act := fun _ _ f m w =>
  match m w with
  | (w', Ok a) => f a w'
  | (w', Throw e) => (w', Throw e)
  end.

Definition update (f : FormState → FormState) : act unit :=
  fun w => ((f w.1, w.2), Ok tt).

Definition setEntry (v : string) : act unit :=
  update (fun s => mkFormState v (isAnalyzing s) (analysis s)
                     (recommendations s) (selectedSong s) (isSaving s)).
Definition setIsAnalyzing (v : bool) : act unit :=
  update (fun s => mkFormState (entry s) v (analysis s)
                     (recommendations s) (selectedSong s) (isSaving s)).
Definition setSentiment (v : option SentimentResult) : act unit :=
  update (fun s => mkFormState (entry s) (isAnalyzing s) v
                     (recommendations s) (selectedSong s) (isSaving s)).
Definition setRecommendations (v : list SpotifyTrack) : act unit :=
  update (fun s => mkFormState (entry s) (isAnalyzing s) (analysis s)
                     v (selectedSong s) (isSaving s)).
Definition setSelectedSong (v : option SpotifyTrack) : act unit :=
  update (fun s => mkFormState (entry s) (isAnalyzing s) (analysis s)
                     (recommendations s) v (isSaving s)).
Definition setIsSaving (v : bool) : act unit :=
  update (fun s => mkFormState (entry s) (isAnalyzing s) (analysis s)
                     (recommendations s) (selectedSong s) v).

(** [await fetch(...)]: the request is logged and the outcome returned. *)
Definition send {A} (c : call) (outcome : result (response A)) : act (response A) :=
  fun w => ((w.1, w.2 ++ [c]), outcome).

Definition lift {A} (r : result A) : act A := fun w => (w, r).

(** [try { body } catch { } finally { cleanup }] *)
Definition tryFinally (body : act unit) (cleanup : act unit) : act unit :=
  fun w => cleanup (body w).1.

(** [if (!response.ok) throw new Error(...)] *)
Definition requireOk {A} (r : response A) : act unit :=
  if negb (ok r) then lift (Throw (HttpError (status r))) else mret tt.

Section handlers.

Variable api : Api.

(** [handleAnalyze]; [entry] is the value the handler closed over. *)
Definition handleAnalyze (st : FormState) : FormState * list call :=
  if blank (entry st) then (st, [])
  else
    ((setIsAnalyzing true;;
      setSentiment None;;
      setRecommendations [];;
      tryFinally
        (sentimentResponse ←
           send (PostSentiment (entry st)) (sentimentEndpoint api (entry st));
         requireOk sentimentResponse;;
         sentimentResult ← lift (body sentimentResponse);
         setSentiment (Some sentimentResult);;
         songsResponse ←
           send (PostRecommendations (sentiment sentimentResult)
                   (mood sentimentResult))
                (recommendationsEndpoint api (sentiment sentimentResult)
                   (mood sentimentResult));
         requireOk songsResponse;;
         songsResult ← lift (body songsResponse);
         setRecommendations (default [] songsResult))
        (setIsAnalyzing false))
       (st, [])).1.

(** The body of the request of [handleSaveEntry]. *)
Definition entryData (text : string) (s : SentimentResult)
    (song : option SpotifyTrack) : Entries.EntryData :=
  Entries.mkEntryData text (Some (sentiment s)) (Some (confidence s))
    (Some (mood s))
    (id <$> song) (name <$> song) (song ≫= fun t => head (artists t))
    (external_url <$> song).

(** [handleSaveEntry] *)
Definition handleSaveEntry (st : FormState) : FormState * list call :=
  if blank (entry st) then (st, [])
  else
    match analysis st with
    | None => (st, [])
    | Some s =>
        ((setIsSaving true;;
          tryFinally
            (let data := entryData (entry st) s (selectedSong st) in
             response ← send (PostEntry data) (entriesEndpoint api data);
             requireOk response;;
             setEntry "";;
             setSentiment None;;
             setRecommendations [];;
             setSelectedSong None)
            (setIsSaving false))
           (st, [])).1
    end.

End handlers.

(** The outcome of the save request that counts as success. *)
Definition accepted (outcome : result (response unit)) : bool :=
  match outcome with
  | Ok r => ok r
  | Throw _ => false
  end.

(** [useState] initial values. *)
Definition initial : FormState := mkFormState "" false None [] None false.

End DiaryEntryForm.

(** ** [components/RecentEntries.tsx] *)

Module RecentEntriesView.

Section view.

(** A row as the listing endpoint serialises it. *)
Variable DiaryEntry : Type.

Record ViewState : Type := mkViewState {
  entries : list DiaryEntry;
  isLoading : bool
}.

Definition initial : ViewState := mkViewState [] true.

(** [fetchEntries], the effect run once after mounting. *)
Definition fetchEntries (outcome : result (response (list DiaryEntry)))
    (st : ViewState) : ViewState :=
  let loaded :=
    try_catch
      (response ← outcome;
       if negb (ok response) then Throw (HttpError (status response))
       else
         data ← body response;
         mret (mkViewState data (isLoading st)))
      st in
  mkViewState (entries loaded) false.

(** What the component renders. *)
Inductive rendering : Type :=
| Spinner
| NoEntriesFound
| EntryCards (rows : list DiaryEntry).

Definition render (st : ViewState) : rendering :=
  if isLoading st then Spinner
  else match entries st with
       | [] => NoEntriesFound
       | rows => EntryCards rows
       end.

End view.

End RecentEntriesView.

(** ** [app/dashboard/page.tsx] and [app/auth/signin/page.tsx] *)

Module Pages.

Inductive status : Type := Loading | Authenticated | Unauthenticated.

(** The effect of [Dashboard]: where it sends the browser, if anywhere. *)
Definition dashboardRedirect {S} (session : option S) (st : status) : option string :=
  match st with
  | Loading => None
  | _ => match session with
         | None => Some "/auth/signin"
         | Some _ => None
         end
  end.

(** Whether [Dashboard] renders the diary. *)
Definition dashboardShowsDiary {S} (session : option S) (st : status) : bool :=
  match st with
  | Loading => false
  | _ => bool_decide (is_Some session)
  end.

(** The effect of [SignIn], once [getSession] has resolved. *)
Definition signInRedirect {S} (session : option S) : option string :=
  match session with
  | Some _ => Some "/dashboard"
  | None => None
  end.

End Pages.

(** ** Outcomes of the classifier call *)

Module ClassifierOutcome.

Import Sentiment.

Definition chatRequest (text : string) : ChatRequest :=
  mkChatRequest "gpt-3.5-turbo" text true (3 # 10).

Section outcomes.

Variable create : ChatRequest → result ChatCompletion.
Variable JSON_parse : string → result json.

(** The call throws, told on what the client and the parser answer: the
    request is rejected, the response has no choice, its first choice has no
    message, or the text of the message is there and is not JSON. *)
Inductive throws (text : string) : Prop :=
| Rejected e :
    create (chatRequest text) = Throw e →
    throws text
| NoChoice response :
    create (chatRequest text) = Ok response →
    choices response = [] →
    throws text
| NoMessage response rest :
    create (chatRequest text) = Ok response →
    choices response = mkChoice None :: rest →
    throws text
| NotJson response rest t e :
    create (chatRequest text) = Ok response →
    choices response = mkChoice (Some (mkMessage (Some t))) :: rest →
    t ≠ "" →
    JSON_parse t = Throw e →
    throws text.

(** A response that is malformed in that its first message carries no
    text, [null] or the empty string. *)
Definition withoutText (text : string) : Prop :=
  ∃ response rest t,
    create (chatRequest text) = Ok response
    ∧ choices response = mkChoice (Some (mkMessage t)) :: rest
    ∧ (t = None ∨ t = Some "").

End outcomes.

End ClassifierOutcome.

(** ** Sequences of saves *)

Module EntriesLog.

(** One call of the [POST] handler: the session, the body, and the
    identifier and the time the database will give the row. *)
Record postRequest : Type := mkPostRequest {
  pr_session : option Entries.Session;
  pr_body : result Entries.EntryData;
  pr_fresh : string;
  pr_now : Z
}.

(** The store after a sequence of calls of [POST]. *)
Definition replay (requests : list postRequest) (db : Entries.Store)
    : Entries.Store :=
  fold_left
    (fun db r =>
       (Entries.POST (pr_session r) (pr_body r) (pr_fresh r) (pr_now r) db).2)
    requests db.

End EntriesLog.

(** ** Sample data *)

(** A service that serves the profile and the new playlist and refuses to
    add tracks, with status 403. *)
Definition refusingTracks (r : request) : result (response json) :=
  match req_endpoint r with
  | Me => Ok (mkResponse true 200 (Ok (JObject [("id", JString "user1")])))
  | UserPlaylists _ =>
      Ok (mkResponse true 201 (Ok (JObject [("id", JString "playlist1")])))
  | PlaylistTracks _ => Ok (mkResponse false 403 (Ok (JObject [])))
  end.

(** A store with two users and three entries, and the session of the first
    user. *)
Definition sampleEntry (id owner : string) (at_ : Z) : Entries.Entry :=
  Entries.mkEntry id owner "A quiet day." None None None at_
                  None None None None at_ at_.

Definition sampleStore : Entries.Store :=
  Entries.mkStore true
    [ Entries.mkUser "u1" (Some "ann@example.org");
      Entries.mkUser "u2" (Some "bob@example.org") ]
    [ sampleEntry "e1" "u1" 10; sampleEntry "e2" "u2" 20;
      sampleEntry "e3" "u1" 30 ].

Definition sampleSession : option Entries.Session :=
  Some (Entries.mkSession (Some (Entries.mkSessionUser (Some "ann@example.org")))).

Definition sampleTrack : SpotifyTrack :=
  mkTrack "t1" "Song" ["Artist"] "https://open.spotify.com/track/t1" None.


(** A parser that knows the empty object and the empty array only. *)
Definition tinyParser (text : string) : result json :=
  if decide (text = "{}") then Ok (JObject [])
  else if decide (text = "[]") then Ok (JArray [])
  else Throw SyntaxError.

Definition answering (t : option string) (_ : Sentiment.ChatRequest)
    : result Sentiment.ChatCompletion :=
  Ok (Sentiment.mkCompletion [Sentiment.mkChoice (Some (Sentiment.mkMessage t))]).

(** A service that cannot be reached, and one that answers [ok] with an
    object that has no [tracks]. *)
Definition unreachableSpotify (token : string) (p : Params)
    : result (response json) :=
  Throw NetworkError.

Definition emptyAnswerSpotify (token : string) (p : Params)
    : result (response json) :=
  Ok (mkResponse true 200 (Ok (JObject []))).

(** A store in which the first user has 51 entries, dated 1 to 51, and the
    50 rows listed for that user. *)
Definition crowdedStore : Entries.Store :=
  Entries.mkStore true
    [ Entries.mkUser "u1" (Some "ann@example.org");
      Entries.mkUser "u2" (Some "bob@example.org") ]
    ((fun i => sampleEntry "e" "u1" i) <$> seqZ 1 51).

Definition crowdedRows : list Entries.Entry :=
  (fun i => sampleEntry "e" "u1" i) <$> reverse (seqZ 2 50).

Definition sampleData : Entries.EntryData :=
  Entries.mkEntryData "A quiet day." (Some "neutral") (Some (5 # 10))
    (Some "calm") None None None None.

Definition otherSession : option Entries.Session :=
  Some (Entries.mkSession (Some (Entries.mkSessionUser (Some "bob@example.org")))).

#[local] Instance Q_eq_dec : EqDecision Q.
Proof. solve_decision. Defined.

#[local] Instance Entry_eq_dec : EqDecision Entries.Entry.
Proof. solve_decision. Defined.

(** Endpoints that answer every request, and a form with a draft. *)
Definition sampleApi : DiaryEntryForm.Api :=
  DiaryEntryForm.mkApi
    (fun _ => Ok (mkResponse true 200
                    (Ok (DiaryEntryForm.mkSentimentResult "positive" (9 # 10)
                           "happy" None))))
    (fun _ _ => Ok (mkResponse true 200 (Ok (Some [sampleTrack]))))
    (fun _ => Ok (mkResponse true 200 (Ok tt))).

Definition sampleDraft : DiaryEntryForm.FormState :=
  DiaryEntryForm.mkFormState "Sunny day" false None [] None false.

(** * Sample evaluations *)

Example params_positive_energetic :
  recommendationParams (Str "positive") (Str "energetic")
  = Ok (mkParams ["pop"; "indie"; "electronic"] (7 # 10) (8 # 10) (7 # 10) "10").
Proof. vm_compute. reflexivity. Qed.

Example params_constructor :
  recommendationParams (Str "constructor") (Str "calm") = Throw TypeError.
Proof. vm_compute. reflexivity. Qed.

Example genres_negative_sad :
  getGenresBySentiment (Str "negative") (Str "sad")
  = Ok [ "indie"; "alternative"; "blues"; "folk"; "ambient";
         "blues"; "indie"; "folk"; "alternative" ].
Proof. vm_compute. reflexivity. Qed.

Example genres_unknown_labels :
  getGenresBySentiment (Str "joyful") Missing
  = Ok ["chill"; "acoustic"; "indie-folk"; "ambient"; "jazz"].
Proof. vm_compute. reflexivity. Qed.

Example features_negative_calm :
  let features := getAudioFeaturesBySentiment (Str "negative") (Str "calm") in
  (features !! "valence", features !! "energy", features !! "danceability")
  = (Some (6 # 10), Some (3 # 10), Some (4 # 10)).
Proof. vm_compute. reflexivity. Qed.

Example features_inherited_sentiment :
  let features := getAudioFeaturesBySentiment (Str "valueOf") (Str "sad") in
  (features !! "valence", features !! "energy", features !! "danceability")
  = (Some (2 # 10), Some (3 # 10), None).
Proof. vm_compute. reflexivity. Qed.

Example seed_text_positive :
  seed_genres_text (mapToRecommendationQuery (Str "positive") (Str "happy"))
  = "pop,indie,electronic".
Proof. vm_compute. reflexivity. Qed.

Example dedup_keeps_first :
  dedup ["indie"; "blues"; "indie"; "folk"; "blues"] = ["indie"; "blues"; "folk"].
Proof. vm_compute. reflexivity. Qed.

Example listing_sample :
  Entries.GET sampleSession sampleStore
  = Entries.Json [sampleEntry "e3" "u1" 30; sampleEntry "e1" "u1" 10].
Proof. vm_compute. reflexivity. Qed.

Example listing_without_session :
  Entries.GET None sampleStore = Entries.Failure "Unauthorized" 401.
Proof. reflexivity. Qed.

(** * Facts about the tables *)

(** Splits membership in a list written out in full into its cases. *)
Ltac rows H :=
  repeat (apply elem_of_cons in H as [H|H]; [simplify_eq |]);
  try (by apply elem_of_nil in H).

(** Settles a decidable closed proposition by evaluation. *)
Ltac by_compute := apply (bool_decide_unpack _); vm_compute; reflexivity.

Section tables.

Lemma genreMap_own k l : genreMap !! k = Some l → k ∉ objectPrototypeKeys.
Proof. intros H%elem_of_list_to_map_2. rows H; by_compute. Qed.

Lemma moodGenres_own k l : moodGenres !! k = Some l → k ∉ objectPrototypeKeys.
Proof. intros H%elem_of_list_to_map_2. rows H; by_compute. Qed.

Lemma baseFeatures_own k o : baseFeatures !! k = Some o → k ∉ objectPrototypeKeys.
Proof. intros H%elem_of_list_to_map_2. rows H; by_compute. Qed.

Lemma moodAdjustments_own k o :
  moodAdjustments !! k = Some o → k ∉ objectPrototypeKeys.
Proof. intros H%elem_of_list_to_map_2. rows H; by_compute. Qed.

Lemma undefined_not_inherited : "undefined" ∉ objectPrototypeKeys.
Proof. by_compute. Qed.

(** Every sentiment row lists five genres, the first three distinct. *)
Lemma genreMap_row k l :
  genreMap !! k = Some l → length l = 5 ∧ NoDup (take 3 l).
Proof.
  intros H%elem_of_list_to_map_2.
  rows H; (split; [reflexivity | by_compute]).
Qed.

(** The feature tables have one row per sentiment that has genres. *)
Lemma baseFeatures_dom k :
  is_Some (baseFeatures !! k) ↔ is_Some (genreMap !! k).
Proof.
  split; intros [x H]; apply elem_of_list_to_map_2 in H; rows H; eexists; reflexivity.
Qed.

End tables.

(** * Property reads on the tables *)

Section property_reads.

Context {A : Type} (table : gmap string A).

Lemma get_own k a : table !! k = Some a → get table k = Own a.
Proof. unfold get. by intros ->. Qed.

Lemma get_inherited k :
  table !! k = None → k ∈ objectPrototypeKeys → get table k = Inherited k.
Proof. unfold get. intros -> Hk. by rewrite decide_True. Qed.

Lemma get_undefined k :
  table !! k = None → k ∉ objectPrototypeKeys → get table k = Undefined.
Proof. unfold get. intros -> Hk. by rewrite decide_False. Qed.

(** Away from the inherited names, reading the table with an argument is
    the lookup of a recognised label. *)
Lemma get_recognised (a : arg) :
  table !! "undefined" = None →
  toPropertyKey a ∉ objectPrototypeKeys →
  get table (toPropertyKey a) = from_option Own Undefined (recognised table a).
Proof.
  intros Hu Hk. destruct a as [|k]; simpl in *.
  - by rewrite get_undefined.
  - destruct (table !! k) eqn:E; [by apply get_own | by apply get_undefined].
Qed.

End property_reads.

(** * Removal of duplicates *)

Section dedup.

Implicit Types l r : list string.

Lemma elem_of_dedup x l : x ∈ dedup l ↔ x ∈ l.
Proof.
  induction l as [|y l IH]; simpl; [done|].
  rewrite !elem_of_cons, list_elem_of_filter, IH.
  destruct (decide (x = y)) as [->|Hxy]; [split; intros _; by left |].
  split; [intros [?|[_ ?]] | intros [?|?]]; (done || by right).
Qed.

Lemma NoDup_dedup l : NoDup (dedup l).
Proof.
  induction l as [|y l IH]; simpl; [constructor|].
  constructor.
  - rewrite list_elem_of_filter. by intros [Hy _].
  - by apply NoDup_filter.
Qed.

Lemma take_filter_Forall (P : string → Prop) `{!∀ x, Decision (P x)} (n : nat) l :
  Forall P (take n l) → take n (filter P l) = take n l.
Proof.
  revert l. induction n as [|n IH]; intros [|y l]; simpl; try done.
  intros [Hy Hl]%Forall_cons. rewrite filter_cons_True by done.
  simpl. by rewrite IH.
Qed.

(** A prefix without repetition survives the removal of duplicates. *)
Lemma take_dedup_app (n : nat) l r :
  (n ≤ length l)%nat → NoDup (take n l) → take n (dedup (l ++ r)) = take n l.
Proof.
  revert l. induction n as [|n IH]; intros [|x l]; simpl; try done; try lia.
  intros Hlen [Hx Hnd]%NoDup_cons. f_equal.
  rewrite take_filter_Forall; rewrite IH by (done || lia); [done|].
  apply Forall_forall. intros y Hy ->. done.
Qed.

End dedup.

(** * The lookups of [SpotifyService] against the specification's mapper *)

Section rows.

(** Every stored number lies in the unit interval and sits under one of
    the three feature names. *)
Lemma baseFeatureRows_sound k o f v :
  (k, o) ∈ baseFeatureRows → o !! f = Some v →
  f ∈ featureNames ∧ inUnitInterval v.
Proof.
  intros Hk. rows Hk; unfold features;
    intros H%elem_of_list_to_map_2; rows H;
    (split; [by_compute | unfold inUnitInterval, Qle; simpl; lia]).
Qed.

Lemma moodAdjustmentRows_sound k o f v :
  (k, o) ∈ moodAdjustmentRows → o !! f = Some v →
  f ∈ featureNames ∧ inUnitInterval v.
Proof.
  intros Hk. rows Hk;
    intros H%elem_of_list_to_map_2; rows H;
    (split; [by_compute | unfold inUnitInterval, Qle; simpl; lia]).
Qed.

Lemma baseFeatureRows_complete k o f :
  (k, o) ∈ baseFeatureRows → f ∈ featureNames → is_Some (o !! f).
Proof.
  intros Hk Hf. rows Hk; unfold featureNames in Hf; rows Hf; eexists; reflexivity.
Qed.

Lemma neutral_row : (("neutral", neutralFeatures) : string * gmap string Q) ∈ baseFeatureRows.
Proof. do 2 apply list_elem_of_further. apply list_elem_of_here. Qed.

Lemma baseTriple_row sentiment :
  ∃ k, (k, baseTriple sentiment) ∈ baseFeatureRows.
Proof.
  unfold baseTriple. destruct (recognised baseFeatures sentiment) as [o|] eqn:E.
  - destruct sentiment as [|k]; [done|]. exists k. by apply elem_of_list_to_map_2.
  - exists "neutral". apply neutral_row.
Qed.

Lemma overrides_sound mood f v :
  overrides mood !! f = Some v → f ∈ featureNames ∧ inUnitInterval v.
Proof.
  unfold overrides. destruct (recognised moodAdjustments mood) as [o|] eqn:E; simpl.
  - destruct mood as [|k]; [done|]. intros Hf.
    apply moodAdjustmentRows_sound with k o; [|done].
    by apply elem_of_list_to_map_2.
  - by rewrite lookup_empty.
Qed.

Lemma baseGenres_row sentiment :
  length (baseGenres sentiment) = 5 ∧ NoDup (take 3 (baseGenres sentiment)).
Proof.
  unfold baseGenres. destruct (recognised genreMap sentiment) as [l|] eqn:E; simpl.
  - destruct sentiment as [|k]; [done|]. by apply genreMap_row with k.
  - by apply genreMap_row with "neutral".
Qed.

End rows.

Section overlay.

Lemma overlay_union (base adj : gmap string Q) f :
  (adj ∪ base) !! f = overlay base adj f.
Proof.
  unfold overlay. rewrite lookup_union.
  by destruct (adj !! f), (base !! f).
Qed.

(** The overlaid triple of the specification: three numbers of the unit
    interval and no other field. *)
Lemma overlay_sound sentiment mood f v :
  overlay (baseTriple sentiment) (overrides mood) f = Some v →
  f ∈ featureNames ∧ inUnitInterval v.
Proof.
  unfold overlay. destruct (overrides mood !! f) as [w|] eqn:E.
  - intros [= ->]. by apply overrides_sound with mood.
  - destruct (baseTriple_row sentiment) as [k Hk]. by apply baseFeatureRows_sound with k.
Qed.

Lemma overlay_complete sentiment mood f :
  f ∈ featureNames → is_Some (overlay (baseTriple sentiment) (overrides mood) f).
Proof.
  intros Hf. unfold overlay. destruct (overrides mood !! f); [by eexists|].
  destruct (baseTriple_row sentiment) as [k Hk]. by apply baseFeatureRows_complete with k.
Qed.

End overlay.

Section refinement.

Implicit Types sentiment mood : arg.

Lemma getGenresBySentiment_refines sentiment mood :
  toPropertyKey sentiment ∉ objectPrototypeKeys →
  toPropertyKey mood ∉ objectPrototypeKeys →
  getGenresBySentiment sentiment mood
  = Ok (baseGenres sentiment ++ moodGenreList mood).
Proof.
  intros Hs Hm. unfold getGenresBySentiment.
  rewrite !get_recognised by (done || reflexivity).
  rewrite (get_own genreMap "neutral" neutralGenres) by reflexivity.
  unfold baseGenres, moodGenreList.
  by destruct (recognised genreMap sentiment), (recognised moodGenres mood).
Qed.

(** A sentiment named like a member of [Object.prototype] reads that
    member, which the array spread cannot iterate. *)
Lemma getGenresBySentiment_inherited_sentiment sentiment mood :
  toPropertyKey sentiment ∈ objectPrototypeKeys →
  getGenresBySentiment sentiment mood = Throw TypeError.
Proof.
  intros Hs. unfold getGenresBySentiment.
  rewrite (get_inherited genreMap (toPropertyKey sentiment)); [done| |done].
  destruct (genreMap !! toPropertyKey sentiment) eqn:E; [|done].
  by apply genreMap_own in E.
Qed.

Lemma getGenresBySentiment_inherited_mood sentiment mood :
  toPropertyKey mood ∈ objectPrototypeKeys →
  getGenresBySentiment sentiment mood = Throw TypeError.
Proof.
  intros Hm.
  destruct (decide (toPropertyKey sentiment ∈ objectPrototypeKeys)) as [Hs|Hs];
    [by apply getGenresBySentiment_inherited_sentiment|].
  unfold getGenresBySentiment.
  rewrite (get_recognised genreMap sentiment) by (done || reflexivity).
  rewrite (get_own genreMap "neutral" neutralGenres) by reflexivity.
  rewrite (get_inherited moodGenres (toPropertyKey mood)).
  - by destruct (recognised genreMap sentiment).
  - destruct (moodGenres !! toPropertyKey mood) eqn:E; [|done].
    by apply moodGenres_own in E.
  - done.
Qed.

Lemma getAudioFeaturesBySentiment_refines sentiment mood :
  toPropertyKey sentiment ∉ objectPrototypeKeys →
  toPropertyKey mood ∉ objectPrototypeKeys →
  getAudioFeaturesBySentiment sentiment mood
  = overrides mood ∪ baseTriple sentiment.
Proof.
  intros Hs Hm. unfold getAudioFeaturesBySentiment.
  rewrite !get_recognised by (done || reflexivity).
  rewrite (get_own baseFeatures "neutral" neutralFeatures) by reflexivity.
  unfold baseTriple, overrides.
  by destruct (recognised baseFeatures sentiment),
              (recognised moodAdjustments mood).
Qed.

(** Away from the inherited names the code computes the specification's
    query. *)
Lemma recommendationParams_refines sentiment mood :
  toPropertyKey sentiment ∉ objectPrototypeKeys →
  toPropertyKey mood ∉ objectPrototypeKeys →
  recommendationParams sentiment mood
  = Ok (mapToRecommendationQuery sentiment mood).
Proof.
  intros Hs Hm. unfold recommendationParams, mapToRecommendationQuery.
  rewrite getGenresBySentiment_refines, getAudioFeaturesBySentiment_refines by done.
  simpl. rewrite !overlay_union.
  destruct (overlay_complete sentiment mood "valence") as [v ->]; [by_compute|].
  destruct (overlay_complete sentiment mood "energy") as [e ->]; [by_compute|].
  destruct (overlay_complete sentiment mood "danceability") as [d ->]; [by_compute|].
  reflexivity.
Qed.

(** On an inherited name no query is built. *)
Lemma recommendationParams_inherited sentiment mood :
  (toPropertyKey sentiment ∈ objectPrototypeKeys)
  ∨ (toPropertyKey mood ∈ objectPrototypeKeys) →
  recommendationParams sentiment mood = Throw TypeError.
Proof.
  unfold recommendationParams. intros [H|H].
  - by rewrite getGenresBySentiment_inherited_sentiment.
  - by rewrite getGenresBySentiment_inherited_mood.
Qed.

(** The query fails exactly on the inherited names. *)
Lemma recommendationParams_Throw sentiment mood e :
  recommendationParams sentiment mood = Throw e ↔
  e = TypeError
  ∧ ((toPropertyKey sentiment ∈ objectPrototypeKeys)
     ∨ (toPropertyKey mood ∈ objectPrototypeKeys)).
Proof.
  split.
  - intros He.
    destruct (decide (toPropertyKey sentiment ∈ objectPrototypeKeys)) as [Hs|Hs].
    { rewrite recommendationParams_inherited in He by (by left).
      injection He as <-. split; [done | by left]. }
    destruct (decide (toPropertyKey mood ∈ objectPrototypeKeys)) as [Hm|Hm].
    { rewrite recommendationParams_inherited in He by (by right).
      injection He as <-. split; [done | by right]. }
    by rewrite recommendationParams_refines in He.
  - intros [-> H]. by apply recommendationParams_inherited.
Qed.

Lemma recommendationParams_Ok sentiment mood p :
  recommendationParams sentiment mood = Ok p →
  (toPropertyKey sentiment ∉ objectPrototypeKeys)
  ∧ (toPropertyKey mood ∉ objectPrototypeKeys)
  ∧ p = mapToRecommendationQuery sentiment mood.
Proof.
  intros Hp.
  destruct (decide (toPropertyKey sentiment ∈ objectPrototypeKeys)) as [Hs|Hs];
    [by rewrite recommendationParams_inherited in Hp by (by left)|].
  destruct (decide (toPropertyKey mood ∈ objectPrototypeKeys)) as [Hm|Hm];
    [by rewrite recommendationParams_inherited in Hp by (by right)|].
  rewrite recommendationParams_refines in Hp by done.
  by injection Hp as <-.
Qed.

End refinement.

Section query.

Implicit Types sentiment mood : arg.

Lemma seedSet_base sentiment mood :
  seedSet sentiment mood = take 3 (baseGenres sentiment).
Proof.
  unfold seedSet. apply take_app_le.
  destruct (baseGenres_row sentiment) as [-> _]. lia.
Qed.

Lemma dedupedSeedSet_base sentiment mood :
  dedupedSeedSet sentiment mood = take 3 (baseGenres sentiment).
Proof.
  unfold dedupedSeedSet. destruct (baseGenres_row sentiment) as [Hlen Hnd].
  apply take_dedup_app; [lia | done].
Qed.

Lemma target_mapToRecommendationQuery sentiment mood f :
  target (mapToRecommendationQuery sentiment mood) f
  = overlay (baseTriple sentiment) (overrides mood) f.
Proof.
  unfold target, mapToRecommendationQuery; simpl.
  repeat case_decide; subst.
  - by destruct (overlay_complete sentiment mood "valence") as [v ->]; [by_compute|].
  - by destruct (overlay_complete sentiment mood "energy") as [v ->]; [by_compute|].
  - by destruct (overlay_complete sentiment mood "danceability") as [v ->]; [by_compute|].
  - destruct (overlay _ _ f) as [v|] eqn:E; [|done].
    apply overlay_sound in E as [Hf _]. unfold featureNames in Hf. rows Hf.
Qed.

(** Labels outside an enumeration are not rows of the tables. *)
Lemma unknown_sentiment_unrecognised k :
  k ∉ sentimentLabels →
  recognised genreMap (Str k) = None ∧ recognised baseFeatures (Str k) = None.
Proof. intros Hk. split; by apply not_elem_of_list_to_map_1. Qed.

Lemma unknown_mood_unrecognised k :
  k ∉ moodLabels →
  recognised moodGenres (Str k) = None ∧ recognised moodAdjustments (Str k) = None.
Proof.
  intros Hk. split; apply not_elem_of_list_to_map_1;
    intros H; apply Hk; simpl in H; unfold moodLabels; rows H; by_compute.
Qed.

Lemma unknown_sentiment_query k mood :
  k ∉ sentimentLabels →
  mapToRecommendationQuery (Str k) mood
  = mapToRecommendationQuery (Str "neutral") mood.
Proof.
  intros [Hg Hf]%unknown_sentiment_unrecognised.
  unfold mapToRecommendationQuery, seedSet, baseGenres, baseTriple.
  by rewrite Hg, Hf.
Qed.

Lemma unknown_mood_query sentiment k :
  k ∉ moodLabels →
  mapToRecommendationQuery sentiment (Str k)
  = mapToRecommendationQuery sentiment Missing.
Proof.
  intros [Hg Hf]%unknown_mood_unrecognised.
  unfold mapToRecommendationQuery, seedSet, moodGenreList, overrides.
  by rewrite Hg, Hf.
Qed.

End query.

(** * The recommendation query *)

Section mapper_claims.

Implicit Types sentiment mood : arg.

(** C1. Whatever the sentiment and the mood, the genre list the query is
    built from is the sentiment's base genres followed by the mood's genres,
    repetitions kept, and the seeds are the first three entries of that
    concatenation. *)
Theorem seeds_concatenate_then_truncate sentiment mood p :
  recommendationParams sentiment mood = Ok p →
  ∃ genres,
    getGenresBySentiment sentiment mood = Ok genres
    ∧ genres = baseGenres sentiment ++ moodGenreList mood
    ∧ seed_genres p = take 3 genres.
Proof.
  intros (Hs & Hm & ->)%recommendationParams_Ok.
  exists (baseGenres sentiment ++ moodGenreList mood).
  by rewrite getGenresBySentiment_refines.
Qed.

Lemma seeds_concatenate_then_truncate_witness :
  ∃ genres,
    getGenresBySentiment (Str "negative") (Str "sad") = Ok genres
    ∧ genres = baseGenres (Str "negative") ++ moodGenreList (Str "sad")
    ∧ seed_genres (mkParams ["indie"; "alternative"; "blues"]
                            (2 # 10) (3 # 10) (4 # 10) "10")
      = take 3 genres.
Proof.
  apply (seeds_concatenate_then_truncate (Str "negative") (Str "sad")).
  vm_compute. reflexivity.
Defined.

(** C2. The three audio targets are the sentiment's base triple overlaid
    with the mood's partial record: a field the mood lists takes the mood's
    value, a field it does not list keeps the base value, and there is no
    other field. *)
Theorem features_overlay_per_field sentiment mood p :
  recommendationParams sentiment mood = Ok p →
  (∀ f v, overrides mood !! f = Some v → target p f = Some v)
  ∧ (∀ f, overrides mood !! f = None → target p f = baseTriple sentiment !! f).
Proof.
  intros (Hs & Hm & ->)%recommendationParams_Ok.
  split; intros f; [intros v|]; intros Hf;
    rewrite target_mapToRecommendationQuery; unfold overlay; by rewrite Hf.
Qed.

Lemma features_overlay_per_field_witness :
  let p := mkParams ["pop"; "indie"; "electronic"] (7 # 10) (8 # 10) (7 # 10) "10" in
  target p "energy" = Some (8 # 10)
  ∧ target p "valence" = baseTriple (Str "positive") !! "valence".
Proof.
  intros p.
  destruct (features_overlay_per_field (Str "positive") (Str "energetic") p)
    as [Hlisted Hkept]; [vm_compute; reflexivity|].
  split; [apply Hlisted | apply Hkept]; reflexivity.
Defined.

(** C9. The seed set is an ordered sequence of at most three genres without
    repetition, equal to what removing duplicates from the sentiment genres
    followed by the mood genres and cutting to three entries gives. *)
Theorem seed_set_deduplicated sentiment mood p :
  recommendationParams sentiment mood = Ok p →
  seed_genres p = dedupedSeedSet sentiment mood
  ∧ NoDup (seed_genres p)
  ∧ (length (seed_genres p) ≤ 3)%nat.
Proof.
  intros (Hs & Hm & ->)%recommendationParams_Ok. simpl.
  rewrite dedupedSeedSet_base, seedSet_base.
  destruct (baseGenres_row sentiment) as [Hlen Hnd].
  split; [done|]. split; [done|]. rewrite length_take. lia.
Qed.

Lemma seed_set_deduplicated_witness :
  let p := mkParams ["indie"; "alternative"; "blues"] (2 # 10) (3 # 10) (4 # 10) "10" in
  seed_genres p = dedupedSeedSet (Str "negative") (Str "sad")
  ∧ NoDup (seed_genres p)
  ∧ (length (seed_genres p) ≤ 3)%nat.
Proof.
  apply (seed_set_deduplicated (Str "negative") (Str "sad")).
  vm_compute. reflexivity.
Defined.

(** C10. The seeds are exactly the first three of the five base genres of
    the sentiment (the neutral row when the sentiment is not recognised);
    there are always three of them and the mood has no say in them. *)
Theorem seeds_are_first_three_base_genres sentiment mood p :
  recommendationParams sentiment mood = Ok p →
  length (baseGenres sentiment) = 5%nat
  ∧ seed_genres p = take 3 (baseGenres sentiment)
  ∧ length (seed_genres p) = 3%nat
  ∧ ∀ mood' p', recommendationParams sentiment mood' = Ok p' →
                seed_genres p' = seed_genres p.
Proof.
  intros (Hs & Hm & ->)%recommendationParams_Ok. simpl.
  destruct (baseGenres_row sentiment) as [Hlen Hnd].
  rewrite seedSet_base. repeat split; [done| |].
  - rewrite length_take. lia.
  - intros mood' p' (_ & _ & ->)%recommendationParams_Ok. simpl.
    by rewrite seedSet_base.
Qed.

Lemma seeds_are_first_three_base_genres_witness :
  let p := mkParams ["pop"; "indie"; "electronic"] (7 # 10) (6 # 10) (6 # 10) "10" in
  let p' := mkParams ["pop"; "indie"; "electronic"] (6 # 10) (3 # 10) (6 # 10) "10" in
  length (baseGenres (Str "positive")) = 5%nat
  ∧ seed_genres p = take 3 (baseGenres (Str "positive"))
  ∧ length (seed_genres p) = 3%nat
  ∧ seed_genres p' = seed_genres p.
Proof.
  intros p p'.
  destruct (seeds_are_first_three_base_genres (Str "positive") (Str "angry") p)
    as (Hfive & Hseeds & Hthree & Hmood); [vm_compute; reflexivity|].
  split; [exact Hfive|]. split; [exact Hseeds|]. split; [exact Hthree|].
  apply (Hmood (Str "calm")). vm_compute. reflexivity.
Defined.

End mapper_claims.

(** * Labels outside the enumerations *)

Section unknown_labels.

Implicit Types sentiment mood : arg.

(** An unrecognised sentiment that is not an inherited name is treated as
    neutral. *)
Lemma unknown_sentiment_defaults_to_neutral k mood :
  k ∉ sentimentLabels → k ∉ objectPrototypeKeys →
  recommendationParams (Str k) mood = recommendationParams (Str "neutral") mood.
Proof.
  intros Hk Hp.
  destruct (decide (toPropertyKey mood ∈ objectPrototypeKeys)) as [Hm|Hm].
  - by rewrite !recommendationParams_inherited by (by right).
  - rewrite !recommendationParams_refines by (done || by_compute).
    by rewrite unknown_sentiment_query.
Qed.

(** An unrecognised mood that is not an inherited name contributes what an
    absent mood contributes: nothing. *)
Lemma unknown_mood_contributes_nothing sentiment k :
  k ∉ moodLabels → k ∉ objectPrototypeKeys →
  recommendationParams sentiment (Str k) = recommendationParams sentiment Missing.
Proof.
  intros Hk Hp.
  destruct (decide (toPropertyKey sentiment ∈ objectPrototypeKeys)) as [Hs|Hs].
  - by rewrite !recommendationParams_inherited by (by left).
  - rewrite !recommendationParams_refines by (done || by_compute).
    by rewrite unknown_mood_query.
Qed.

(** Away from the inherited names a query is always built, with at most
    three seeds and the three targets in the unit interval. *)
Lemma recommendationParams_total sentiment mood :
  toPropertyKey sentiment ∉ objectPrototypeKeys →
  toPropertyKey mood ∉ objectPrototypeKeys →
  ∃ p, recommendationParams sentiment mood = Ok p
       ∧ (length (seed_genres p) ≤ 3)%nat
       ∧ inUnitInterval (target_valence p)
       ∧ inUnitInterval (target_energy p)
       ∧ inUnitInterval (target_danceability p).
Proof.
  intros Hs Hm. eexists. split; [by apply recommendationParams_refines|].
  set (p := mapToRecommendationQuery sentiment mood).
  split; [unfold p; simpl; unfold seedSet; rewrite length_take; lia|].
  assert (∀ f v, target p f = Some v → inUnitInterval v) as Hunit.
  { intros f v. unfold p. rewrite target_mapToRecommendationQuery.
    by intros [_ ?]%overlay_sound. }
  split; [by apply (Hunit "valence")|].
  split; [by apply (Hunit "energy") | by apply (Hunit "danceability")].
Qed.

Lemma labels_not_inherited k :
  k ∈ sentimentLabels ∨ k ∈ moodLabels → k ∉ objectPrototypeKeys.
Proof.
  unfold sentimentLabels, moodLabels. intros [H|H]; rows H; by_compute.
Qed.

(** C3. The sentiment [constructor] is none of positive, negative and
    neutral, yet it is not mapped as neutral is: reading the genre table
    under that name finds the inherited member of every object, which is
    truthy and cannot be spread into the array, and no query is built; the
    feature lookup, for its part, loses the base triple. *)
Theorem inherited_sentiment_is_not_neutral :
  ("constructor" ∉ sentimentLabels)
  ∧ recommendationParams (Str "constructor") (Str "calm") = Throw TypeError
  ∧ recommendationParams (Str "neutral") (Str "calm")
    = Ok (mkParams ["chill"; "acoustic"; "indie-folk"] (6 # 10) (3 # 10) (5 # 10) "10")
  ∧ getAudioFeaturesBySentiment (Str "constructor") (Str "calm") !! "danceability"
    = None
  ∧ getAudioFeaturesBySentiment (Str "neutral") (Str "calm") !! "danceability"
    = Some (5 # 10).
Proof.
  split; [by_compute|]. repeat split; vm_compute; reflexivity.
Qed.

(** C4. The mood [constructor] is outside the mood enumeration, yet the
    query for it differs from the query without a mood: the genre lookup
    throws on it, where an absent mood yields the sentiment-only query. *)
Theorem inherited_mood_is_not_absent :
  ("constructor" ∉ moodLabels)
  ∧ recommendationParams (Str "negative") (Str "constructor") = Throw TypeError
  ∧ recommendationParams (Str "negative") Missing
    = Ok (mkParams ["indie"; "alternative"; "blues"] (3 # 10) (4 # 10) (4 # 10) "10").
Proof.
  split; [by_compute|]. split; vm_compute; reflexivity.
Qed.

(** C5. The mapping is not total: for the sentiment [positive] of the
    enumeration and the mood [toString] no query is built, and
    [getRecommendations] answers with no track whatever the service would
    have returned. *)
Theorem query_fails_on_inherited_mood :
  "positive" ∈ sentimentLabels
  ∧ recommendationParams (Str "positive") (Str "toString") = Throw TypeError
  ∧ ∀ fetch, getRecommendations fetch (Str "positive") (Str "toString") = [].
Proof.
  split; [by_compute|].
  assert (recommendationParams (Str "positive") (Str "toString") = Throw TypeError)
    as H by (vm_compute; reflexivity).
  split; [done|]. intros fetch. unfold getRecommendations. by rewrite H.
Qed.

End unknown_labels.

(** * [analyzeSentiment] *)

Section sentiment_claims.

Import Sentiment.

Variable create : ChatRequest → result ChatCompletion.
Variable JSON_parse : string → result json.

(** What the function returns, case by case: the parsed message when every
    step of the [try] block goes through, the neutral result otherwise. *)
Lemma analyzeSentiment_cases text :
  classifierFails create JSON_parse text
  ∧ analyzeSentiment create JSON_parse text = neutralResult
  ∨ ∃ response message v,
      create (mkChatRequest "gpt-3.5-turbo" text true (3 # 10)) = Ok response
      ∧ firstMessage response = Ok message
      ∧ JSON_parse (contentOrEmptyObject message) = Ok v
      ∧ analyzeSentiment create JSON_parse text = v.
Proof.
  unfold analyzeSentiment, classify.
  destruct (create _) as [response|e] eqn:Hc; simpl.
  - destruct (firstMessage response) as [message|e] eqn:Hm; simpl.
    + destruct (JSON_parse _) as [v|e] eqn:Hp; simpl.
      * right. by exists response, message, v.
      * left. split; [|done]. by eapply ParseError.
    + left. split; [|done]. by eapply MalformedResponse.
  - left. split; [|done]. by eapply CallRejected.
Qed.

(** C6. Whenever the classifier call throws, because the request is
    rejected, because the response has no first choice or no message to
    read, or because the text of the message is not JSON, [analyzeSentiment]
    returns exactly the document with sentiment neutral, confidence 0.5 and
    mood calm, and nothing else; its result type has no failure case. *)
Theorem analyzeSentiment_neutral_when_call_throws text :
  ClassifierOutcome.throws create JSON_parse text →
  analyzeSentiment create JSON_parse text
  = JObject [ ("sentiment", JString "neutral");
              ("confidence", JNumber (5 # 10));
              ("mood", JString "calm") ].
Proof.
  unfold analyzeSentiment, classify, ClassifierOutcome.chatRequest.
  intros [e Hc | response Hc Hnil | response rest Hc Hr
          | response rest t e Hc Hr Ht Hp];
    unfold ClassifierOutcome.chatRequest in Hc; rewrite Hc; simpl.
  - reflexivity.
  - unfold firstMessage. rewrite Hnil. reflexivity.
  - unfold firstMessage. rewrite Hr. reflexivity.
  - unfold firstMessage. rewrite Hr. simpl.
    unfold contentOrEmptyObject. simpl.
    destruct t as [|c t']; [done|]. rewrite Hp. reflexivity.
Qed.

End sentiment_claims.

Lemma analyzeSentiment_neutral_when_call_throws_witness :
  Sentiment.analyzeSentiment (answering (Some "not json")) tinyParser "A quiet day."
  = JObject [ ("sentiment", JString "neutral");
              ("confidence", JNumber (5 # 10));
              ("mood", JString "calm") ].
Proof.
  apply analyzeSentiment_neutral_when_call_throws.
  eapply (ClassifierOutcome.NotJson _ _ _ _ [] "not json");
    [reflexivity | reflexivity | discriminate | reflexivity].
Defined.

(** C6, the claim as worded. A response whose first message has no text is
    a malformed response, and yet what [analyzeSentiment] returns for it is
    the empty object that ['{}'] parses to, not the neutral document. *)
Lemma analyzeSentiment_without_text_is_not_neutral :
  ClassifierOutcome.withoutText (answering None) "A quiet day."
  ∧ tinyParser "{}" = Ok (JObject [])
  ∧ Sentiment.analyzeSentiment (answering None) tinyParser "A quiet day."
    = JObject []
  ∧ Sentiment.analyzeSentiment (answering None) tinyParser "A quiet day."
    ≠ JObject [ ("sentiment", JString "neutral");
                ("confidence", JNumber (5 # 10));
                ("mood", JString "calm") ].
Proof.
  split.
  { exists (Sentiment.mkCompletion
              [Sentiment.mkChoice (Some (Sentiment.mkMessage None))]), [], None.
    split; [reflexivity|]. split; [reflexivity | by left]. }
  split; [reflexivity|]. split; [reflexivity | discriminate].
Qed.

Section sentiment_notes.

Import Sentiment.

(** A message without text is read as the empty object: the answer is then
    whatever the parser makes of it, not the neutral result. *)
Lemma analyzeSentiment_empty_content create JSON_parse text response rest :
  create (mkChatRequest "gpt-3.5-turbo" text true (3 # 10)) = Ok response →
  choices response = mkChoice (Some (mkMessage None)) :: rest →
  analyzeSentiment create JSON_parse text
  = try_catch (JSON_parse "{}") neutralResult.
Proof.
  intros Hc Hr. unfold analyzeSentiment, classify, firstMessage.
  rewrite Hc. simpl. rewrite Hr. reflexivity.
Qed.

End sentiment_notes.

(** * [createPlaylist] *)

Section playlist_claims.

Variable service : request → result (response json).
Variables (name : string) (trackIds : list string).

Ltac run := unfold createPlaylist, catch, call, lift, mbind, io_bind, mret, io_ret; simpl.

(** The first step fails: one request, no playlist. *)
Lemma createPlaylist_user_failed :
  failed (service meRequest) →
  createPlaylist service name trackIds = ([meRequest], JNull).
Proof.
  run. destruct (service meRequest) as [r|e]; simpl; [|done].
  by intros ->.
Qed.

(** The second step fails: two requests, no playlist. *)
Lemma createPlaylist_create_failed r user userId :
  service meRequest = Ok r → ok r = true → body r = Ok user →
  idOf user = Ok userId →
  failed (service (newPlaylistRequest userId name)) →
  createPlaylist service name trackIds
  = ([meRequest; newPlaylistRequest userId name], JNull).
Proof.
  intros Hme Hok Hbody Hid. run. rewrite Hme, Hok; simpl. rewrite Hbody, Hid.
  destruct (service (newPlaylistRequest userId name)) as [r'|e]; simpl; [|done].
  by intros ->.
Qed.

(** The third step: a rejected [fetch] gives no playlist, while a response
    that is not [ok] goes unnoticed and the playlist is returned. *)
Lemma createPlaylist_add_outcome r user userId r' playlist playlistId :
  service meRequest = Ok r → ok r = true → body r = Ok user →
  idOf user = Ok userId →
  service (newPlaylistRequest userId name) = Ok r' → ok r' = true →
  body r' = Ok playlist → idOf playlist = Ok playlistId →
  (0 < length trackIds)%nat →
  createPlaylist service name trackIds
  = ([meRequest; newPlaylistRequest userId name;
      addTracksRequest playlistId trackIds],
     match service (addTracksRequest playlistId trackIds) with
     | Throw _ => JNull
     | Ok _ => playlist
     end).
Proof.
  intros Hme Hok Hbody Hid Hnew Hok' Hbody' Hid' Hlen. run.
  rewrite Hme, Hok; simpl. rewrite Hbody, Hid, Hnew, Hok'; simpl.
  rewrite Hbody', bool_decide_true by done. rewrite Hid'.
  by destruct (service (addTracksRequest playlistId trackIds)).
Qed.

(** No request of [createPlaylist] deletes anything: a playlist created in
    the second step stays when the third fails. *)
Lemma createPlaylist_never_deletes :
  Forall (fun r => req_method r ≠ Delete) (createPlaylist service name trackIds).1.
Proof.
  run. destruct (service meRequest) as [r|e]; simpl; [|by repeat constructor].
  destruct (ok r); simpl; [|by repeat constructor].
  destruct (body r) as [user|e]; [|by repeat constructor].
  destruct (idOf user) as [userId|e]; [|by repeat constructor].
  destruct (service (newPlaylistRequest userId name)) as [r'|e]; simpl;
    [|by repeat constructor].
  destruct (ok r'); simpl; [|by repeat constructor].
  destruct (body r') as [playlist|e]; [|by repeat constructor].
  case_bool_decide; [|by repeat constructor].
  destruct (idOf playlist) as [playlistId|e]; [|by repeat constructor].
  destruct (service (addTracksRequest playlistId trackIds));
    by repeat constructor.
Qed.

End playlist_claims.

(** C7. When the third step, adding the tracks, is answered with an error
    status, [createPlaylist] does not return [null]: the first two steps
    test the [ok] flag of their response, the third does not, and the
    playlist created in the second step is returned as if complete. *)
Theorem createPlaylist_ignores_refused_tracks :
  failed (refusingTracks (addTracksRequest (Some (JString "playlist1")) ["track1"]))
  ∧ createPlaylist refusingTracks "Mood" ["track1"]
    = ([ meRequest;
         newPlaylistRequest (Some (JString "user1")) "Mood";
         addTracksRequest (Some (JString "playlist1")) ["track1"] ],
       JObject [("id", JString "playlist1")]).
Proof. split; vm_compute; reflexivity. Qed.

(** * Listing the entries *)

Section entries_claims.

Import Entries.

#[local] Instance newerFirst_transitive : Transitive newerFirst.
Proof. unfold newerFirst. intros a b c ??. lia. Qed.

#[local] Instance newerFirst_total : Total newerFirst.
Proof. unfold newerFirst. intros a b. lia. Qed.

Lemma StronglySorted_take {A} (R : relation A) (n : nat) (l : list A) :
  StronglySorted R l → StronglySorted R (take n l).
Proof.
  intros Hl. rewrite <-(take_drop n l) in Hl.
  by apply StronglySorted_app_1_l in Hl.
Qed.

(** Descending with no timestamp shared is strictly descending. *)
Lemma newerFirst_strict (rows : list Entry) :
  StronglySorted newerFirst rows → NoDup (date <$> rows) →
  StronglySorted (fun a b => date b < date a)%Z rows.
Proof.
  induction 1 as [|a l Hl IH Ha]; simpl; [constructor|].
  intros [Hnotin Hnd]%NoDup_cons. constructor; [by apply IH|].
  apply Forall_forall. intros b Hb.
  rewrite Forall_forall in Ha. specialize (Ha b Hb). unfold newerFirst in Ha.
  assert (date b ≠ date a); [|lia].
  intros Heq. apply Hnotin. rewrite <-Heq. by apply list_elem_of_fmap_2.
Qed.

(** A relation that agrees with [newerFirst] on the listed rows sorts them
    as well. *)
Lemma StronglySorted_weaken {A} (R R' : relation A) (P : A → Prop) (l : list A) :
  (∀ a b, P a → P b → R a b → R' a b) →
  Forall P l → StronglySorted R l → StronglySorted R' l.
Proof.
  intros HR HP. induction 1 as [|a l Hl IH Ha]; [constructor|].
  apply Forall_cons in HP as [HPa HPl]. constructor; [by apply IH|].
  rewrite Forall_forall in *. intros b Hb. apply HR; auto.
Qed.

Lemma findManyEntries_Ok db owner (n : nat) rows :
  findManyEntries db owner n = Ok rows →
  rows = take n (merge_sort newerFirst
                   (filter (fun e => userId e = owner) (entries db))).
Proof. unfold findManyEntries. destruct (reachable db); by intros [= <-]. Qed.

Lemma findManyEntries_elem_of db owner (n : nat) rows e :
  findManyEntries db owner n = Ok rows → e ∈ rows →
  e ∈ entries db ∧ userId e = owner.
Proof.
  intros -> %findManyEntries_Ok He%subseteq_take.
  rewrite merge_sort_Permutation in He. by apply list_elem_of_filter in He as [? ?].
Qed.

Lemma findManyEntries_sorted db owner (n : nat) rows :
  findManyEntries db owner n = Ok rows →
  (length rows ≤ n)%nat ∧ StronglySorted newerFirst rows.
Proof.
  intros -> %findManyEntries_Ok. split.
  - rewrite length_take. lia.
  - apply StronglySorted_take, StronglySorted_merge_sort; apply _.
Qed.

(** The rows left out are none of them newer than a row listed. *)
Lemma findManyEntries_most_recent db owner (n : nat) rows e r :
  findManyEntries db owner n = Ok rows →
  e ∈ entries db → userId e = owner → e ∉ rows → r ∈ rows →
  (date e ≤ date r)%Z.
Proof.
  intros -> %findManyEntries_Ok He Ho Hout Hr.
  set (sorted := merge_sort newerFirst
                   (filter (fun e => userId e = owner) (entries db))) in *.
  assert (StronglySorted newerFirst (take n sorted ++ drop n sorted)) as Hs.
  { rewrite take_drop. apply StronglySorted_merge_sort; apply _. }
  apply (StronglySorted_app_1_elem_of _ _ _ r e Hs Hr).
  assert (e ∈ sorted) as Hin.
  { unfold sorted. rewrite merge_sort_Permutation. by apply list_elem_of_filter. }
  rewrite <-(take_drop n sorted) in Hin.
  by apply elem_of_app in Hin as [?|?].
Qed.

(** What [GET] answers with rows is what [findMany] returned for the user
    of the session. *)
Lemma GET_Json session db rows :
  GET session db = Json rows →
  ∃ email user,
    sessionEmail session = Some email
    ∧ findUniqueUser db email = Ok (Some user)
    ∧ findManyEntries db (user_id user) 50 = Ok rows.
Proof.
  unfold GET. destruct (sessionEmail session) as [email|]; [|done].
  destruct (findUniqueUser db email) as [[user|]|e] eqn:Hu; simpl; try done.
  destruct (findManyEntries db (user_id user) 50) as [rows'|e] eqn:Hr; simpl;
    [|done].
  intros [= <-]. by exists email, user.
Qed.

(** [POST] keeps every entry stamped with the time of its insert. *)
Lemma POST_stamped session requestBody fresh now db :
  stamped db → stamped (POST session requestBody fresh now db).2.
Proof.
  intros Hdb. unfold POST.
  destruct (sessionEmail session) as [email|]; [|done].
  destruct requestBody as [d|e]; [|done]. simpl.
  destruct (findUniqueUser db email) as [[user|]|e]; simpl; try done.
  unfold createEntry. destruct (reachable db); simpl; [|done].
  unfold stamped; simpl. apply Forall_app. split; [done|]. by repeat constructor.
Qed.

(** C8. When [GET] lists the entries of the signed-in user there are at
    most 50 of them and they come newest first: each entry is at least as
    recent as all that follow, strictly more recent when no two listed
    entries share a timestamp; on a store filled by [POST] the [date] column
    is the creation time. *)
Theorem GET_lists_newest_first_at_most_50 session db rows :
  GET session db = Json rows →
  (length rows ≤ 50)%nat
  ∧ StronglySorted newerFirst rows
  ∧ (NoDup (date <$> rows) → StronglySorted (fun a b => date b < date a)%Z rows)
  ∧ (stamped db → StronglySorted (fun a b => createdAt b ≤ createdAt a)%Z rows).
Proof.
  intros (email & user & _ & _ & Hrows)%GET_Json.
  destruct (findManyEntries_sorted _ _ _ _ Hrows) as [Hlen Hsorted].
  split; [done|]. split; [done|]. split; [by apply newerFirst_strict|].
  intros Hdb.
  apply (StronglySorted_weaken newerFirst _ (fun e => date e = createdAt e));
    [| |done].
  - unfold newerFirst. intros a b <- <-. done.
  - apply Forall_forall. intros e He.
    apply (findManyEntries_elem_of _ _ _ _ _ Hrows) in He as [He _].
    unfold stamped in Hdb. rewrite Forall_forall in Hdb. by apply Hdb.
Qed.

End entries_claims.

Lemma GET_lists_newest_first_at_most_50_witness :
  let rows := [sampleEntry "e3" "u1" 30; sampleEntry "e1" "u1" 10] in
  (length rows ≤ 50)%nat
  ∧ StronglySorted Entries.newerFirst rows
  ∧ StronglySorted (fun a b => Entries.date b < Entries.date a)%Z rows
  ∧ StronglySorted (fun a b => Entries.createdAt b ≤ Entries.createdAt a)%Z rows.
Proof.
  destruct (GET_lists_newest_first_at_most_50 sampleSession sampleStore
              [sampleEntry "e3" "u1" 30; sampleEntry "e1" "u1" 10])
    as (Hlen & Hsorted & Hstrict & Hcreated); [vm_compute; reflexivity|].
  split; [exact Hlen|]. split; [exact Hsorted|].
  split; [apply Hstrict | apply Hcreated]; by_compute.
Defined.

(** * Further properties of [SpotifyService] *)

Section spotify_properties.

Implicit Types sentiment mood : arg.

(** X2. Half of the moods leave the request untouched: for happy, anxious,
    melancholy, angry and content the query, and with it the tracks
    returned, are those of a call without mood. *)
Theorem moods_without_effect sentiment k :
  k ∈ ["happy"; "anxious"; "melancholy"; "angry"; "content"] →
  recommendationParams sentiment (Str k) = recommendationParams sentiment Missing
  ∧ ∀ fetch, getRecommendations fetch sentiment (Str k)
             = getRecommendations fetch sentiment Missing.
Proof.
  intros Hk.
  assert (recommendationParams sentiment (Str k)
          = recommendationParams sentiment Missing) as Heq.
  { destruct (decide (toPropertyKey sentiment ∈ objectPrototypeKeys)) as [Hs|Hs].
    - by rewrite !recommendationParams_inherited by (by left).
    - rewrite !recommendationParams_refines by (done || rows Hk; by_compute).
      f_equal. unfold mapToRecommendationQuery. rewrite !seedSet_base.
      by rows Hk. }
  split; [done|]. intros fetch. unfold getRecommendations. by rewrite Heq.
Qed.

Lemma moods_without_effect_witness :
  recommendationParams (Str "negative") (Str "angry")
  = recommendationParams (Str "negative") Missing
  ∧ ∀ fetch, getRecommendations fetch (Str "negative") (Str "angry")
             = getRecommendations fetch (Str "negative") Missing.
Proof. apply moods_without_effect. by_compute. Defined.

(** X3. Whatever the two arguments, inherited names included, every field
    of the object [getAudioFeaturesBySentiment] returns is one of valence,
    energy and danceability and holds a number between 0 and 1. *)
Theorem getAudioFeaturesBySentiment_in_range sentiment mood f v :
  getAudioFeaturesBySentiment sentiment mood !! f = Some v →
  f ∈ featureNames ∧ inUnitInterval v.
Proof.
  unfold getAudioFeaturesBySentiment. rewrite lookup_union_Some_raw.
  intros [Hadj | [_ Hbase]].
  - unfold get in Hadj.
    destruct (moodAdjustments !! toPropertyKey mood) as [o|] eqn:E; simpl in Hadj.
    + apply elem_of_list_to_map_2 in E. by eapply moodAdjustmentRows_sound.
    + by case_decide.
  - unfold get in Hbase.
    destruct (baseFeatures !! toPropertyKey sentiment) as [o|] eqn:E;
      simpl in Hbase.
    + apply elem_of_list_to_map_2 in E. by eapply baseFeatureRows_sound.
    + case_decide; simpl in Hbase; [done|].
      eapply baseFeatureRows_sound; [apply neutral_row | exact Hbase].
Qed.

Lemma getAudioFeaturesBySentiment_in_range_witness :
  "valence" ∈ featureNames ∧ inUnitInterval (2 # 10).
Proof.
  apply (getAudioFeaturesBySentiment_in_range (Str "valueOf") (Str "sad")).
  reflexivity.
Defined.

(** X4. [getRecommendations] returns tracks only if the service was asked
    the query of three seeds that the specification describes and answered
    [ok] with exactly these tracks; in every other case the list is empty. *)
Theorem getRecommendations_nonempty fetch sentiment mood :
  getRecommendations fetch sentiment mood ≠ [] →
  ∃ r, fetch (mapToRecommendationQuery sentiment mood) = Ok r
       ∧ ok r = true
       ∧ body r = Ok (getRecommendations fetch sentiment mood)
       ∧ length (seed_genres (mapToRecommendationQuery sentiment mood)) = 3%nat.
Proof.
  unfold getRecommendations.
  destruct (recommendationParams sentiment mood) as [p|e] eqn:Hp; simpl; [|done].
  apply recommendationParams_Ok in Hp as (_ & _ & ->).
  destruct (fetch _) as [r|e] eqn:Hf; simpl; [|done].
  destruct (ok r) eqn:Hok; simpl; [|done].
  destruct (body r) as [tracks|e] eqn:Hb; simpl; [|done].
  intros _. exists r. repeat split; try done.
  simpl. rewrite seedSet_base, length_take.
  destruct (baseGenres_row sentiment) as [-> _]. done.
Qed.

End spotify_properties.

Lemma getRecommendations_nonempty_witness :
  ∃ r, (fun _ => Ok (mkResponse true 200 (Ok [sampleTrack])))
         (mapToRecommendationQuery (Str "positive") (Str "happy")) = Ok r
       ∧ ok r = true
       ∧ body r = Ok (getRecommendations
                        (fun _ => Ok (mkResponse true 200 (Ok [sampleTrack])))
                        (Str "positive") (Str "happy"))
       ∧ length (seed_genres (mapToRecommendationQuery (Str "positive") (Str "happy")))
         = 3%nat.
Proof.
  apply (getRecommendations_nonempty
           (fun _ => Ok (mkResponse true 200 (Ok [sampleTrack])))).
  vm_compute. discriminate.
Defined.

Section spotify_failure.

Implicit Types sentiment mood : arg.

(** X1. The genre lookup, and with it the construction of the query, throws
    exactly when the sentiment or the mood, read as a property key, names a
    member of [Object.prototype]; the exception is a [TypeError]. Every other
    pair of arguments, absent or unknown labels included, yields a query. *)
Theorem query_fails_exactly_on_inherited_names sentiment mood :
  ((∃ e, getGenresBySentiment sentiment mood = Throw e) ↔
   (toPropertyKey sentiment ∈ objectPrototypeKeys)
   ∨ (toPropertyKey mood ∈ objectPrototypeKeys))
  ∧ ((∃ e, recommendationParams sentiment mood = Throw e) ↔
     (toPropertyKey sentiment ∈ objectPrototypeKeys)
     ∨ (toPropertyKey mood ∈ objectPrototypeKeys))
  ∧ ∀ e, recommendationParams sentiment mood = Throw e → e = TypeError.
Proof.
  assert ((∃ e, getGenresBySentiment sentiment mood = Throw e) ↔
          (toPropertyKey sentiment ∈ objectPrototypeKeys)
          ∨ (toPropertyKey mood ∈ objectPrototypeKeys)) as Hgenres.
  { split.
    - intros [e He].
      destruct (decide (toPropertyKey sentiment ∈ objectPrototypeKeys)) as [Hs|Hs];
        [by left|].
      destruct (decide (toPropertyKey mood ∈ objectPrototypeKeys)) as [Hm|Hm];
        [by right|].
      by rewrite getGenresBySentiment_refines in He.
    - intros [H|H]; exists TypeError.
      + by apply getGenresBySentiment_inherited_sentiment.
      + by apply getGenresBySentiment_inherited_mood. }
  split; [done|]. split.
  - split.
    + intros [e He]. by apply recommendationParams_Throw in He as [_ ?].
    + intros H. exists TypeError. by apply recommendationParams_inherited.
  - intros e He. by apply recommendationParams_Throw in He as [? _].
Qed.

End spotify_failure.

(** * Further properties of [createPlaylist] *)

Section playlist_properties.

Variable service : request → result (response json).
Variables (name : string) (trackIds : list string).

Ltac run := unfold createPlaylist, catch, call, lift, mbind, io_bind, mret, io_ret; simpl.

(** X5. When the profile request is rejected, is answered with an error
    status, has an unreadable body or yields [null] for the user,
    [createPlaylist] stops there: that request is the only one sent and the
    result is [null]. *)
Theorem createPlaylist_stops_after_profile :
  failed (service meRequest)
  ∨ (∃ r, service meRequest = Ok r
          ∧ ((∃ e, body r = Throw e) ∨ body r = Ok JNull)) →
  createPlaylist service name trackIds = ([meRequest], JNull).
Proof.
  run. intros [Hf | (r & -> & Hb)].
  - destruct (service meRequest) as [r|e]; simpl; [|done]. simpl in Hf. by rewrite Hf.
  - simpl. destruct (ok r); simpl; [|done].
    destruct Hb as [[e ->] | ->]; done.
Qed.


(** X7. [createPlaylist] sends at most three requests, in the order profile,
    new playlist, tracks, the first a [GET] and the others [POST]; it never
    sends a [DELETE] or a [PUT], so nothing it created is taken back. *)
Theorem createPlaylist_request_log :
  let log := (createPlaylist service name trackIds).1 in
  map req_method log `prefix_of` [Get; Post; Post]
  ∧ (map req_method log ≠ [])
  ∧ ∃ userId playlistId,
      log `prefix_of` [ meRequest; newPlaylistRequest userId name;
                        addTracksRequest playlistId trackIds ].
Proof.
  assert (∀ (a b c : method) (x y z : request),
            [req_method x] `prefix_of` [req_method x; b; c]
            ∧ [x] `prefix_of` [x; y; z]) as H1.
  { intros. split; by eexists [_; _]. }
  assert (∀ (c : method) (x y z : request),
            [req_method x; req_method y] `prefix_of` [req_method x; req_method y; c]
            ∧ [x; y] `prefix_of` [x; y; z]) as H2.
  { intros. split; by eexists [_]. }
  run.
  destruct (service meRequest) as [r|e]; simpl.
  2: { split; [apply (H1 Get Post Post meRequest meRequest meRequest)|].
       split; [done|]. exists None, None. apply (H1 Get Get Get). }
  destruct (ok r); simpl.
  2: { split; [apply (H1 Get Post Post meRequest meRequest meRequest)|].
       split; [done|]. exists None, None. apply (H1 Get Get Get). }
  destruct (body r) as [user|e].
  2: { split; [apply (H1 Get Post Post meRequest meRequest meRequest)|].
       split; [done|]. exists None, None. apply (H1 Get Get Get). }
  destruct (idOf user) as [userId|e].
  2: { split; [apply (H1 Get Post Post meRequest meRequest meRequest)|].
       split; [done|]. exists None, None. apply (H1 Get Get Get). }
  assert (([Get; Post] `prefix_of` [Get; Post; Post])
          ∧ (([Get; Post] : list method) ≠ [])
          ∧ ∃ userId0 playlistId,
              [meRequest; newPlaylistRequest userId name]
              `prefix_of` [ meRequest; newPlaylistRequest userId0 name;
                            addTracksRequest playlistId trackIds ]) as Htwo.
  { split; [by eexists [_]|]. split; [done|].
    exists userId, None. by eexists [_]. }
  destruct (service (newPlaylistRequest userId name)) as [r'|e]; simpl; [|done].
  destruct (ok r'); simpl; [|done].
  destruct (body r') as [playlist|e]; [|done].
  case_bool_decide; [|done].
  destruct (idOf playlist) as [playlistId|e]; [|done].
  assert (([Get; Post; Post] `prefix_of` [Get; Post; Post])
          ∧ (([Get; Post; Post] : list method) ≠ [])
          ∧ ∃ userId0 playlistId0,
              [meRequest; newPlaylistRequest userId name;
               addTracksRequest playlistId trackIds]
              `prefix_of` [ meRequest; newPlaylistRequest userId0 name;
                            addTracksRequest playlistId0 trackIds ]) as Hthree.
  { split; [done|]. split; [done|]. by exists userId, playlistId. }
  by destruct (service (addTracksRequest playlistId trackIds)).
Qed.

End playlist_properties.

Lemma createPlaylist_stops_after_profile_witness :
  createPlaylist (fun _ => Throw NetworkError) "Mood" ["track1"]
  = ([meRequest], JNull).
Proof. apply createPlaylist_stops_after_profile. left. exact I. Defined.


Section playlist_results.

Variable service : request → result (response json).
Variable name : string.

Ltac run := unfold createPlaylist, catch, call, lift, mbind, io_bind, mret, io_ret; simpl.


(** X9. A result other than [null] is always the body of an [ok] answer to
    the creation request, sent for the user of an [ok] profile answer:
    [createPlaylist] never makes a playlist up and never returns one after a
    failed first or second step. *)
Theorem createPlaylist_result_provenance trackIds v :
  (createPlaylist service name trackIds).2 = v → v ≠ JNull →
  ∃ r user userId r',
    service meRequest = Ok r ∧ ok r = true ∧ body r = Ok user
    ∧ idOf user = Ok userId
    ∧ service (newPlaylistRequest userId name) = Ok r' ∧ ok r' = true
    ∧ body r' = Ok v.
Proof.
  run.
  destruct (service meRequest) as [r|e] eqn:Hme; simpl; [|by intros <-].
  destruct (ok r) eqn:Hok; simpl; [|by intros <-].
  destruct (body r) as [user|e] eqn:Hbody; [|by intros <-].
  destruct (idOf user) as [userId|e] eqn:Hid; [|by intros <-].
  destruct (service (newPlaylistRequest userId name)) as [r'|e] eqn:Hnew; simpl;
    [|by intros <-].
  destruct (ok r') eqn:Hok'; simpl; [|by intros <-].
  destruct (body r') as [playlist|e] eqn:Hbody'; [|by intros <-].
  assert (playlist = v → v ≠ JNull →
          ∃ r0 user0 userId0 r0',
            Ok r = Ok r0 ∧ ok r0 = true ∧ body r0 = Ok user0
            ∧ idOf user0 = Ok userId0
            ∧ service (newPlaylistRequest userId0 name) = Ok r0' ∧ ok r0' = true
            ∧ body r0' = Ok v) as Hdone.
  { intros <- _. by exists r, user, userId, r'. }
  case_bool_decide; [|done].
  destruct (idOf playlist) as [playlistId|e]; [|by intros <-].
  destruct (service (addTracksRequest playlistId trackIds)); [done | by intros <-].
Qed.

End playlist_results.


Lemma createPlaylist_result_provenance_witness :
  ∃ r user userId r',
    refusingTracks meRequest = Ok r ∧ ok r = true ∧ body r = Ok user
    ∧ idOf user = Ok userId
    ∧ refusingTracks (newPlaylistRequest userId "Mood") = Ok r' ∧ ok r' = true
    ∧ body r' = Ok (JObject [("id", JString "playlist1")]).
Proof.
  apply (createPlaylist_result_provenance refusingTracks "Mood" ["track1"]);
    [reflexivity | discriminate].
Defined.

(** * Further properties of [analyzeSentiment] *)

Section sentiment_properties.

Import Sentiment.

Variable create : ChatRequest → result ChatCompletion.
Variable JSON_parse : string → result json.

(** X10. When the classifier answers and the text of its first message
    parses, [analyzeSentiment] returns the parsed value as it is, whatever
    its shape: nothing checks that it has a sentiment, a confidence or a
    mood. *)
Theorem analyzeSentiment_passes_through text response rest t v :
  create (mkChatRequest "gpt-3.5-turbo" text true (3 # 10)) = Ok response →
  choices response = mkChoice (Some (mkMessage (Some t))) :: rest →
  t ≠ "" →
  JSON_parse t = Ok v →
  analyzeSentiment create JSON_parse text = v.
Proof.
  intros Hc Hr Ht Hp. unfold analyzeSentiment, classify, firstMessage.
  rewrite Hc. simpl. rewrite Hr. simpl.
  unfold contentOrEmptyObject. simpl. destruct t; [done|]. by rewrite Hp.
Qed.

(** X11. A first message whose text is [null] or empty is read as the
    empty object: the result is then what the parser makes of the two
    characters, and not the neutral result. *)
Theorem analyzeSentiment_empty_message text response rest t :
  create (mkChatRequest "gpt-3.5-turbo" text true (3 # 10)) = Ok response →
  choices response = mkChoice (Some (mkMessage t)) :: rest →
  t = None ∨ t = Some "" →
  JSON_parse "{}" = Ok (JObject []) →
  analyzeSentiment create JSON_parse text = JObject []
  ∧ analyzeSentiment create JSON_parse text ≠ neutralResult.
Proof.
  intros Hc Hr Ht Hp.
  assert (analyzeSentiment create JSON_parse text = JObject []) as ->.
  { unfold analyzeSentiment, classify, firstMessage.
    rewrite Hc. simpl. rewrite Hr. simpl.
    unfold contentOrEmptyObject. simpl. destruct Ht as [-> | ->]; by rewrite Hp. }
  split; [done | discriminate].
Qed.

End sentiment_properties.

Lemma analyzeSentiment_passes_through_witness :
  Sentiment.analyzeSentiment (answering (Some "[]")) tinyParser "A quiet day."
  = JArray [].
Proof.
  eapply (analyzeSentiment_passes_through _ _ _ _ [] "[]"); try reflexivity.
  discriminate.
Defined.

Lemma analyzeSentiment_empty_message_witness :
  Sentiment.analyzeSentiment (answering None) tinyParser "A quiet day." = JObject []
  ∧ Sentiment.analyzeSentiment (answering None) tinyParser "A quiet day."
    ≠ Sentiment.neutralResult.
Proof.
  eapply (analyzeSentiment_empty_message _ _ _ _ [] None); try reflexivity.
  by left.
Defined.

(** * Blank text *)

Section trim.

Import Text.

Implicit Types l : list Ascii.ascii.

Lemma dropWhile_nil p l : dropWhile p l = [] ↔ Forall (fun c => p c = true) l.
Proof.
  induction l as [|c l IH]; simpl; [by split; [constructor|]|].
  destruct (p c) eqn:Hc.
  - rewrite IH. split; [by constructor | by intros [_ ?]%Forall_cons].
  - split; [done|]. intros [Hc' _]%Forall_cons. congruence.
Qed.

Lemma dropWhile_fixed p l :
  Forall (fun c => p c = true) (dropWhile p l) → dropWhile p l = [].
Proof.
  induction l as [|c l IH]; simpl; [done|].
  destruct (p c) eqn:Hc; [done|]. intros [Hc' _]%Forall_cons. congruence.
Qed.

Lemma trimList_nil l :
  trimList l = [] ↔ Forall (fun c => isWhiteSpace c = true) l.
Proof.
  unfold trimList. split.
  - intros H. apply dropWhile_nil.
    apply (f_equal reverse) in H. rewrite reverse_involutive in H.
    change (reverse []) with (@nil Ascii.ascii) in H.
    apply dropWhile_nil in H. rewrite Forall_reverse in H.
    by apply dropWhile_fixed.
  - intros H%dropWhile_nil. by rewrite H.
Qed.

Lemma length_string_of_list_ascii l :
  String.length (String.string_of_list_ascii l) = length l.
Proof. induction l as [|c l IH]; simpl; [done | by rewrite IH]. Qed.

(** A string is blank exactly when all its characters are white space. *)
Lemma blank_spec s :
  blank s = true ↔
  Forall (fun c => isWhiteSpace c = true) (String.list_ascii_of_string s).
Proof.
  unfold blank, trim. rewrite bool_decide_eq_true, length_string_of_list_ascii.
  rewrite <-trimList_nil. by destruct (trimList _).
Qed.

End trim.

(** * The sentiment endpoint *)

Section sentiment_route.

Import Text Values SentimentRoute.

Variable create : Sentiment.ChatRequest → result Sentiment.ChatCompletion.
Variable JSON_parse : string → result json.

Lemma blank_empty : blank "" = true.
Proof. reflexivity. Qed.

(** X12. For a signed-in caller, a body whose [text] is missing, falsy or
    made of white space only is answered with status 400 and the message
    "Text is required", whatever the classifier would have said: the text
    never reaches it. *)
Theorem sentiment_route_rejects_blank_text session body text :
  member "text" body = Ok text →
  truthy text = false
  ∨ (∃ s, text = Some (JString s)
          ∧ Forall (fun c => isWhiteSpace c = true) (String.list_ascii_of_string s)) →
  POST create JSON_parse (Some session) (Ok body)
  = Respond 400 (errorBody "Text is required").
Proof.
  intros Hm Hblank. unfold POST. simpl. rewrite Hm. simpl.
  destruct Hblank as [-> | (s & -> & Hs)]; [done|].
  apply blank_spec in Hs. unfold blank in Hs.
  destruct (truthy (Some (JString s))); simpl; [|done]. by rewrite Hs.
Qed.

(** X13. For a signed-in caller and a text that is not blank the answer has
    status 200 and carries what [analyzeSentiment] returns for the text as
    sent, not trimmed; in particular a failing classifier gives status 200
    with the neutral result and never a server error. *)
Theorem sentiment_route_answers_analysis session body s :
  member "text" body = Ok (Some (JString s)) →
  blank s = false →
  POST create JSON_parse (Some session) (Ok body)
  = Respond 200 (Sentiment.analyzeSentiment create JSON_parse s)
  ∧ (Sentiment.classifierFails create JSON_parse s →
     POST create JSON_parse (Some session) (Ok body)
     = Respond 200 Sentiment.neutralResult).
Proof.
  intros Hm Hs.
  assert (POST create JSON_parse (Some session) (Ok body)
          = Respond 200 (Sentiment.analyzeSentiment create JSON_parse s)) as ->.
  { unfold POST. simpl. rewrite Hm. simpl.
    assert (s ≠ "") as Hne by (intros ->; by rewrite blank_empty in Hs).
    rewrite bool_decide_false by done. simpl.
    unfold blank in Hs. by rewrite Hs. }
  split; [done|]. intros Hfail. f_equal.
  unfold Sentiment.analyzeSentiment, Sentiment.classify.
  destruct Hfail as [e Hc | response e Hc Hmsg | response message e Hc Hmsg Hp];
    rewrite Hc; simpl.
  - done.
  - by rewrite Hmsg.
  - rewrite Hmsg. simpl. by rewrite Hp.
Qed.

(** X14. A [text] that is truthy without being a string, such as a number
    or an array, is not caught by the validation: calling [trim] on it
    throws and the answer is the server error 500, not the client error
    400. *)
Theorem sentiment_route_fails_on_text_of_other_type session body v :
  member "text" body = Ok (Some v) →
  truthy (Some v) = true →
  (∀ s, v ≠ JString s) →
  POST create JSON_parse (Some session) (Ok body)
  = Respond 500 (errorBody "Failed to analyze sentiment").
Proof.
  intros Hm Ht Hv. unfold POST. simpl. rewrite Hm. simpl.
  destruct v as [|b|q|s|items|fields]; simpl in Ht |- *;
    try done; try (by rewrite Ht).
  by destruct (Hv s).
Qed.

End sentiment_route.

Lemma sentiment_route_rejects_blank_text_witness :
  SentimentRoute.POST (answering (Some "[]")) tinyParser
    (Some (Entries.mkSession None)) (Ok (JObject [("text", JString "   ")]))
  = SentimentRoute.Respond 400 (Values.errorBody "Text is required").
Proof.
  apply (sentiment_route_rejects_blank_text _ _ _ _ (Some (JString "   ")));
    [reflexivity|].
  right. exists "   ". split; [reflexivity | by repeat constructor].
Defined.

Lemma sentiment_route_answers_analysis_witness :
  SentimentRoute.POST (fun _ => Throw NetworkError) tinyParser
    (Some (Entries.mkSession None)) (Ok (JObject [("text", JString " A quiet day. ")]))
  = SentimentRoute.Respond 200 Sentiment.neutralResult.
Proof.
  apply (sentiment_route_answers_analysis (fun _ => Throw NetworkError) tinyParser
           (Entries.mkSession None) _ " A quiet day. ");
    [reflexivity | reflexivity |].
  by eapply Sentiment.CallRejected.
Defined.

Lemma sentiment_route_fails_on_text_of_other_type_witness :
  SentimentRoute.POST (answering (Some "[]")) tinyParser
    (Some (Entries.mkSession None)) (Ok (JObject [("text", JNumber (5 # 1))]))
  = SentimentRoute.Respond 500 (Values.errorBody "Failed to analyze sentiment").
Proof.
  apply (sentiment_route_fails_on_text_of_other_type _ _ _ _ (JNumber (5 # 1)));
    [reflexivity | reflexivity | discriminate].
Defined.

(** * The recommendations endpoint *)

Section recommendations_route.

Import Values RecommendationsRoute.

Variable numberText : Q → string.
Variable spotify : string → Params → result (response json).

(** X15. With an access token in the session and a body that is not
    [null], the endpoint never answers with an error, whatever the labels in
    the body and whatever the service does: it answers with the object
    [{ tracks }], where [tracks] is the empty list on any failure, and any
    other value, or none at all, is exactly what an [ok] answer of the
    service, obtained with the token of the session, held under [tracks]. *)
Theorem recommendations_route_absorbs_service_failures session token requestJson :
  sessionToken session = Some token → requestJson ≠ JNull →
  ∃ tracks,
    POST numberText spotify session (Ok requestJson) = Tracks tracks
    ∧ (tracks ≠ Some (JArray []) →
       ∃ p r data, spotify token p = Ok r ∧ ok r = true ∧ body r = Ok data
                   ∧ member "tracks" data = Ok tracks).
Proof.
  intros Htoken Hbody. unfold POST. rewrite Htoken. simpl.
  assert (∃ s m, member "sentiment" requestJson = Ok s
                 ∧ member "mood" requestJson = Ok m) as (s & m & -> & ->).
  { destruct requestJson; simpl; eauto. done. }
  simpl. eexists. split; [reflexivity|].
  unfold getRecommendationsUnchecked.
  destruct (toArg numberText s) as [sentiment|e]; simpl; [|done].
  destruct (toArg numberText m) as [mood|e]; simpl; [|done].
  destruct (recommendationParams sentiment mood) as [p|e]; simpl; [|done].
  destruct (spotify token p) as [r|e] eqn:Hr; simpl; [|done].
  destruct (ok r) eqn:Hok; simpl; [|done].
  destruct (body r) as [data|e] eqn:Hb; simpl; [|done].
  destruct (member "tracks" data) as [tracks|e] eqn:Hm; simpl; [|done].
  intros _. by exists p, r, data.
Qed.

End recommendations_route.

Lemma recommendations_route_absorbs_service_failures_witness :
  ∃ tracks,
    RecommendationsRoute.POST (fun _ => "0") emptyAnswerSpotify
      (Some (RecommendationsRoute.mkSession None (Some "token")))
      (Ok (JObject [("sentiment", JString "positive")]))
    = RecommendationsRoute.Tracks tracks
    ∧ (tracks ≠ Some (JArray []) →
       ∃ p r data, emptyAnswerSpotify "token" p = Ok r ∧ ok r = true
                   ∧ body r = Ok data ∧ Values.member "tracks" data = Ok tracks).
Proof.
  apply (recommendations_route_absorbs_service_failures
           (fun _ => "0") emptyAnswerSpotify
           (Some (RecommendationsRoute.mkSession None (Some "token"))) "token");
    [reflexivity | discriminate].
Defined.

(** The answers of the endpoint at four bodies and services: a service that
    cannot be reached, an [ok] answer without [tracks], a label that cannot
    be turned into a property key, and an array that reads as an inherited
    name. *)
Example route_unreachable_service :
  RecommendationsRoute.POST (fun _ => "0") unreachableSpotify
    (Some (RecommendationsRoute.mkSession None (Some "token")))
    (Ok (JObject [("sentiment", JString "positive"); ("mood", JString "calm")]))
  = RecommendationsRoute.Tracks (Some (JArray [])).
Proof. vm_compute. reflexivity. Qed.

Example route_answer_without_tracks :
  RecommendationsRoute.POST (fun _ => "0") emptyAnswerSpotify
    (Some (RecommendationsRoute.mkSession None (Some "token")))
    (Ok (JObject [("sentiment", JString "positive"); ("mood", JString "calm")]))
  = RecommendationsRoute.Tracks None.
Proof. vm_compute. reflexivity. Qed.

Example route_label_without_conversion :
  RecommendationsRoute.POST (fun _ => "0") emptyAnswerSpotify
    (Some (RecommendationsRoute.mkSession None (Some "token")))
    (Ok (JObject [("sentiment", JObject [("toString", JNumber (1 # 1))])]))
  = RecommendationsRoute.Tracks (Some (JArray [])).
Proof. vm_compute. reflexivity. Qed.

Example route_label_array :
  RecommendationsRoute.POST (fun _ => "0") emptyAnswerSpotify
    (Some (RecommendationsRoute.mkSession None (Some "token")))
    (Ok (JObject [("sentiment", JArray [JString "constructor"])]))
  = RecommendationsRoute.Tracks (Some (JArray [])).
Proof. vm_compute. reflexivity. Qed.

(** * Further properties of the entries endpoint *)

Section entries_properties.

Import Entries.

Lemma findUniqueUser_Some db email user :
  findUniqueUser db email = Ok (Some user) →
  reachable db = true ∧ user ∈ users db ∧ user_email user = Some email.
Proof.
  unfold findUniqueUser. destruct (reachable db); [|done].
  intros [= H]. apply find_some in H as [Hin Heq].
  split; [done|]. split; [by apply list_elem_of_In|].
  by apply bool_decide_eq_true in Heq.
Qed.

Lemma findUniqueUser_None db email :
  findUniqueUser db email = Ok None →
  reachable db = true ∧ ∀ u, u ∈ users db → user_email u ≠ Some email.
Proof.
  unfold findUniqueUser. destruct (reachable db); [|done].
  intros [= H]. split; [done|]. intros u Hu%list_elem_of_In Heq.
  apply (find_none _ _ H) in Hu. by apply bool_decide_eq_false in Hu.
Qed.

(** X16. The rows [GET] lists are rows of the store that belong to the
    user whose e-mail address the session carries: no entry of another
    user is ever listed. *)
Theorem GET_lists_own_entries_only session db rows :
  GET session db = Json rows →
  ∃ email user,
    sessionEmail session = Some email
    ∧ user ∈ users db ∧ user_email user = Some email
    ∧ Forall (fun e => e ∈ entries db ∧ userId e = user_id user) rows.
Proof.
  intros (email & user & Hs & Hu & Hrows)%GET_Json.
  apply findUniqueUser_Some in Hu as (_ & Hin & Hemail).
  exists email, user. repeat split; try done.
  apply Forall_forall. intros e He.
  by apply (findManyEntries_elem_of _ _ _ _ _ Hrows).
Qed.

(** X17. An entry of the user is left out of the listing only when 50
    rows are listed, and then it is not newer than any row listed. *)
Theorem GET_omits_only_older_entries session db rows :
  GET session db = Json rows →
  ∃ email user,
    sessionEmail session = Some email
    ∧ user ∈ users db ∧ user_email user = Some email
    ∧ ∀ e, e ∈ entries db → userId e = user_id user → e ∉ rows →
           length rows = 50%nat ∧ ∀ r, r ∈ rows → (date e ≤ date r)%Z.
Proof.
  intros (email & user & Hs & Hu & Hrows)%GET_Json.
  apply findUniqueUser_Some in Hu as (_ & Hin & Hemail).
  exists email, user. do 3 (split; [done|]). intros e He Ho Hout. split.
  - pose proof (findManyEntries_Ok _ _ _ _ Hrows) as ->.
    set (sorted := merge_sort newerFirst
                     (filter (fun e => userId e = user_id user) (entries db))) in *.
    assert (e ∈ sorted) as Hsorted.
    { unfold sorted. rewrite merge_sort_Permutation. by apply list_elem_of_filter. }
    destruct (decide (length sorted ≤ 50)%nat) as [Hle|Hgt].
    + by rewrite take_ge in Hout.
    + rewrite length_take. lia.
  - intros r Hr. by eapply findManyEntries_most_recent.
Qed.

(** X18. A refusal of [GET] tells its reason: 401 means the session carries
    no e-mail address (an empty one counts as none), 500 that the store
    cannot be reached, 404 that the store is reachable and has no user with
    the address. A user who is in a reachable store is never refused, with
    or without entries. *)
Theorem GET_refusals session db :
  (∀ message st, GET session db = Failure message st →
     (st = 401%nat ∧ sessionEmail session = None)
     ∨ (st = 500%nat ∧ is_Some (sessionEmail session) ∧ reachable db = false)
     ∨ (st = 404%nat
        ∧ ∃ email, sessionEmail session = Some email ∧ reachable db = true
                   ∧ ∀ u, u ∈ users db → user_email u ≠ Some email))
  ∧ (∀ email user, sessionEmail session = Some email → reachable db = true →
       user ∈ users db → user_email user = Some email →
       ∃ rows, GET session db = Json rows).
Proof.
  split.
  - intros message st. unfold GET.
    destruct (sessionEmail session) as [email|] eqn:Hs; simpl.
    2: { intros [= <- <-]. by left. }
    destruct (findUniqueUser db email) as [[user|]|e] eqn:Hu; simpl.
    + apply findUniqueUser_Some in Hu as (Hr & _ & _).
      unfold findManyEntries. by rewrite Hr.
    + intros [= <- <-]. right. right. split; [done|]. exists email.
      apply findUniqueUser_None in Hu as [? ?]. done.
    + intros [= <- <-]. right. left. split; [done|]. split; [by eexists|].
      unfold findUniqueUser in Hu. by destruct (reachable db).
  - intros email user Hs Hr Hin Hemail. unfold GET. rewrite Hs.
    destruct (findUniqueUser db email) as [[found|]|e] eqn:Hu; simpl.
    + unfold findManyEntries. rewrite Hr. simpl. by eexists.
    + apply findUniqueUser_None in Hu as [_ Hnone]. by destruct (Hnone user).
    + unfold findUniqueUser in Hu. by rewrite Hr in Hu.
Qed.

(** What a successful [POST] did. *)
Lemma POST_JsonEntry session requestBody fresh now db e db' :
  POST session requestBody fresh now db = (JsonEntry e, db') →
  ∃ email user d,
    sessionEmail session = Some email ∧ requestBody = Ok d
    ∧ findUniqueUser db email = Ok (Some user)
    ∧ e = mkEntry fresh (user_id user) (d_content d) (d_sentiment d)
                  (d_confidence d) (d_mood d) now (d_songId d) (d_songName d)
                  (d_artistName d) (d_songUrl d) now now
    ∧ db' = mkStore true (users db) (entries db ++ [e]).
Proof.
  unfold POST. destruct (sessionEmail session) as [email|]; [|done].
  destruct requestBody as [d|err]; [|done]. simpl.
  destruct (findUniqueUser db email) as [[user|]|err] eqn:Hu; simpl; try done.
  unfold createEntry. destruct (reachable db) eqn:Hr; simpl; [|done].
  intros [= <- <-]. by exists email, user, d.
Qed.

(** X19. A [POST] that answers with a refusal, whatever its status, leaves
    the store exactly as it was. *)
Theorem POST_refusal_changes_nothing session requestBody fresh now db message st db' :
  POST session requestBody fresh now db = (Failure message st, db') → db' = db.
Proof.
  unfold POST. destruct (sessionEmail session) as [email|]; [|by intros [= _ _ <-]].
  destruct requestBody as [d|err]; [|by intros [= _ _ <-]]. simpl.
  destruct (findUniqueUser db email) as [[user|]|err]; simpl;
    try (by intros [= _ _ <-]).
  unfold createEntry. destruct (reachable db); simpl; [done | by intros [= _ _ <-]].
Qed.

(** X20. A [POST] that answers with an entry has appended exactly that
    entry to the store and touched nothing else: the entry belongs to the
    user of the session, carries the content and the labels of the body,
    and its [date] and creation time are the time of the insert. *)
Theorem POST_appends_one_entry session requestBody fresh now db e db' :
  POST session requestBody fresh now db = (JsonEntry e, db') →
  entries db' = entries db ++ [e] ∧ users db' = users db
  ∧ (∃ user email, sessionEmail session = Some email ∧ user ∈ users db
                   ∧ user_email user = Some email ∧ userId e = user_id user)
  ∧ (∃ d, requestBody = Ok d ∧ content e = d_content d
          ∧ sentiment e = d_sentiment d ∧ mood e = d_mood d
          ∧ songId e = d_songId d)
  ∧ entry_id e = fresh ∧ date e = now ∧ createdAt e = now.
Proof.
  intros (email & user & d & Hs & -> & Hu & -> & ->)%POST_JsonEntry. simpl.
  apply findUniqueUser_Some in Hu as (_ & Hin & Hemail).
  repeat split; try done.
  - by exists user, email.
  - by exists d.
Qed.

End entries_properties.

Section entries_sequences.

Import Entries EntriesLog.

#[local] Existing Instance newerFirst_transitive.
#[local] Existing Instance newerFirst_total.

(** One call of [POST] leaves the store alone or appends one stamped
    entry. *)
Lemma POST_step session requestBody fresh now db :
  let db' := (POST session requestBody fresh now db).2 in
  db' = db
  ∨ ∃ e, db' = mkStore true (users db) (entries db ++ [e])
         ∧ date e = createdAt e.
Proof.
  unfold POST. destruct (sessionEmail session) as [email|]; [|by left].
  destruct requestBody as [d|err]; [|by left]. simpl.
  destruct (findUniqueUser db email) as [[user|]|err]; simpl; try by left.
  unfold createEntry. destruct (reachable db); simpl; [|by left].
  right. by eexists.
Qed.

(** X21. Saving never rewrites history: after any sequence of calls of
    [POST] the entries that were stored are still there, unchanged and in
    place, the users are the same, at most one entry was added per call,
    and every entry still carries its creation time in [date]. *)
Theorem replay_keeps_history requests db :
  entries db `prefix_of` entries (replay requests db)
  ∧ users (replay requests db) = users db
  ∧ (length (entries (replay requests db))
     ≤ length (entries db) + length requests)%nat
  ∧ (stamped db → stamped (replay requests db)).
Proof.
  revert db. induction requests as [|r requests IH]; intros db; simpl.
  { split; [done|]. split; [done|]. split; [lia | done]. }
  pose proof (POST_step (pr_session r) (pr_body r) (pr_fresh r) (pr_now r) db)
    as Hstep. simpl in Hstep.
  set (db1 := (POST (pr_session r) (pr_body r) (pr_fresh r) (pr_now r) db).2) in *.
  destruct (IH db1) as (Hprefix & Husers & Hlen & Hstamped).
  unfold replay in *.
  destruct Hstep as [Heq | (e & Heq & He)]; rewrite Heq in *; simpl in *.
  - split; [done|]. split; [done|]. split; [lia | done].
  - split; [by eapply prefix_app_l|]. split; [done|].
    rewrite length_app in Hlen. simpl in Hlen. split; [lia|].
    intros Hdb. apply Hstamped. unfold stamped. simpl.
    apply Forall_app. split; [done | by repeat constructor].
Qed.

(** X22. Saving and then listing shows the new entry first, provided the
    time of the insert is later than the [date] of every entry the user
    already has. *)
Theorem POST_then_GET_lists_new_entry_first session requestBody fresh now db e db' :
  POST session requestBody fresh now db = (JsonEntry e, db') →
  (∀ x, x ∈ entries db → userId x = userId e → (date x < now)%Z) →
  ∃ rest, GET session db' = Json (e :: rest).
Proof.
  intros (email & user & d & Hs & -> & Hu & He & ->)%POST_JsonEntry Hold.
  assert (userId e = user_id user ∧ date e = now) as [Howner Hdate]
    by (by rewrite He).
  unfold GET. rewrite Hs.
  assert (findUniqueUser (mkStore true (users db) (entries db ++ [e])) email
          = Ok (Some user)) as ->.
  { unfold findUniqueUser in *. simpl. by destruct (reachable db). }
  simpl. unfold findManyEntries. simpl.
  set (sorted := merge_sort newerFirst
                   (filter (fun x => userId x = user_id user) (entries db ++ [e]))).
  assert (∀ x, x ∈ sorted → x = e ∨ (date x < now)%Z) as Hcases.
  { intros x. unfold sorted. rewrite merge_sort_Permutation.
    rewrite list_elem_of_filter, elem_of_app, list_elem_of_singleton.
    intros [Hx [Hin | ->]]; [right | by left].
    apply Hold; [done | congruence]. }
  assert (e ∈ sorted) as Hin.
  { unfold sorted. rewrite merge_sort_Permutation.
    apply list_elem_of_filter. split; [done|].
    apply elem_of_app. right. by apply list_elem_of_singleton. }
  assert (StronglySorted newerFirst sorted) as Hsorted.
  { apply StronglySorted_merge_sort; apply _. }
  destruct sorted as [|x rest]; [by apply elem_of_nil in Hin|].
  simpl. exists (take 49 rest). do 2 f_equal.
  destruct (Hcases x) as [-> | Hx]; [by left | done |].
  apply StronglySorted_cons in Hsorted as [Hall _].
  apply elem_of_cons in Hin as [-> | Hin]; [done|].
  rewrite Forall_forall in Hall. specialize (Hall e Hin).
  unfold newerFirst in Hall. lia.
Qed.

(** X23. Saving an entry does not change what [GET] answers to a session
    that resolves to another user. *)
Theorem POST_leaves_other_listings
    session requestBody fresh now db e db' session' email' user' :
  POST session requestBody fresh now db = (JsonEntry e, db') →
  sessionEmail session' = Some email' →
  findUniqueUser db email' = Ok (Some user') →
  user_id user' ≠ userId e →
  GET session' db' = GET session' db.
Proof.
  intros (email & user & d & Hs & -> & Hu & He & ->)%POST_JsonEntry Hs' Hu' Hne.
  unfold GET. rewrite Hs'.
  assert (reachable db = true) as Hr by (by apply findUniqueUser_Some in Hu as (? & _)).
  assert (findUniqueUser (mkStore true (users db) (entries db ++ [e])) email'
          = findUniqueUser db email') as ->.
  { unfold findUniqueUser. simpl. by rewrite Hr. }
  rewrite Hu'. simpl. unfold findManyEntries. simpl. rewrite Hr.
  rewrite filter_app. rewrite (filter_cons_False _ e) by (by intros ?).
  rewrite filter_nil, app_nil_r. done.
Qed.

End entries_sequences.

Lemma GET_lists_own_entries_only_witness :
  ∃ email user,
    Entries.sessionEmail sampleSession = Some email
    ∧ user ∈ Entries.users sampleStore ∧ Entries.user_email user = Some email
    ∧ Forall (fun e => e ∈ Entries.entries sampleStore
                       ∧ Entries.userId e = Entries.user_id user)
             [sampleEntry "e3" "u1" 30; sampleEntry "e1" "u1" 10].
Proof.
  apply (GET_lists_own_entries_only sampleSession sampleStore).
  vm_compute. reflexivity.
Defined.

Lemma GET_omits_only_older_entries_witness :
  length crowdedRows = 50%nat
  ∧ ∀ r, r ∈ crowdedRows → (Entries.date (sampleEntry "e" "u1" 1) ≤ Entries.date r)%Z.
Proof.
  destruct (GET_omits_only_older_entries sampleSession crowdedStore crowdedRows)
    as (email & user & Hs & Hin & Hemail & H); [vm_compute; reflexivity|].
  injection Hs as <-.
  apply H; [by_compute | | by_compute].
  simpl in Hin. rows Hin; reflexivity.
Defined.

Lemma POST_refusal_changes_nothing_witness :
  (Entries.POST sampleSession (Throw SyntaxError) "e4" 40 sampleStore).2 = sampleStore.
Proof.
  apply (POST_refusal_changes_nothing sampleSession (Throw SyntaxError) "e4" 40
           sampleStore "Failed to create entry" 500).
  reflexivity.
Defined.

Lemma POST_appends_one_entry_witness :
  let e := Entries.mkEntry "e4" "u1" "A quiet day." (Some "neutral") (Some (5 # 10))
             (Some "calm") 40 None None None None 40 40 in
  let db' := (Entries.POST sampleSession (Ok sampleData) "e4" 40 sampleStore).2 in
  Entries.entries db' = Entries.entries sampleStore ++ [e]
  ∧ Entries.users db' = Entries.users sampleStore.
Proof.
  intros e db'.
  destruct (POST_appends_one_entry sampleSession (Ok sampleData) "e4" 40
              sampleStore e db') as (Hentries & Husers & _); [reflexivity|].
  by split.
Defined.

Lemma POST_then_GET_lists_new_entry_first_witness :
  let e := Entries.mkEntry "e4" "u1" "A quiet day." (Some "neutral") (Some (5 # 10))
             (Some "calm") 40 None None None None 40 40 in
  ∃ rest,
    Entries.GET sampleSession
      (Entries.POST sampleSession (Ok sampleData) "e4" 40 sampleStore).2
    = Entries.Json (e :: rest).
Proof.
  intros e.
  apply (POST_then_GET_lists_new_entry_first sampleSession (Ok sampleData) "e4" 40
           sampleStore); [reflexivity|].
  intros x Hx Howner. simpl in Hx. rows Hx; simpl in *; (lia || discriminate).
Defined.

Lemma POST_leaves_other_listings_witness :
  Entries.GET otherSession
    (Entries.POST sampleSession (Ok sampleData) "e4" 40 sampleStore).2
  = Entries.GET otherSession sampleStore.
Proof.
  eapply (POST_leaves_other_listings sampleSession (Ok sampleData) "e4" 40
            sampleStore _ _ otherSession "bob@example.org"
            (Entries.mkUser "u2" (Some "bob@example.org")));
    [reflexivity | reflexivity | reflexivity | discriminate].
Defined.

(** * The callbacks of [lib/auth.ts] *)

Section auth_properties.

Import Auth.

Lemma lookup_assign k v (o : gmap string json) k' :
  assign k v o !! k' = if decide (k = k') then v else o !! k'.
Proof.
  unfold assign. destruct v as [x|]; case_decide as Hk; subst.
  - by rewrite lookup_insert_eq.
  - by rewrite lookup_insert_ne.
  - by rewrite lookup_delete_eq.
  - by rewrite lookup_delete_ne.
Qed.

(** X24. After a sign-in the session shows the access token of the
    provider account, and keeps showing it over any number of later token
    refreshes that come without an account; a stale token already in the
    session object never survives. *)
Theorem session_shows_account_token token account stale (n : nat) :
  let token' := Nat.iter n (fun t => jwt t None) (jwt token (Some account)) in
  session stale token' !! "accessToken" = JString <$> access_token account
  ∧ token' !! "refreshToken" = JString <$> refresh_token account.
Proof.
  cbv zeta.
  assert (Nat.iter n (fun t => jwt t None) (jwt token (Some account))
          = jwt token (Some account)) as ->.
  { induction n as [|n IH]; [done|]. by rewrite Nat.iter_succ, IH. }
  unfold session, jwt. rewrite !lookup_assign. simpl. done.
Qed.

(** X25. The callbacks touch nothing else: [jwt] leaves every property of
    the token other than the two tokens as it was, and without an account
    leaves the token as a whole; [session] leaves every property of the
    session other than [accessToken] as it was. *)
Theorem callbacks_frame token account sessionObject k :
  k ≠ "accessToken" → k ≠ "refreshToken" →
  jwt token account !! k = token !! k
  ∧ session sessionObject token !! k = sessionObject !! k
  ∧ jwt token None = token.
Proof.
  intros Ha Hr. split; [|split; [|done]].
  - destruct account as [a|]; simpl; [|done].
    rewrite !lookup_assign. by rewrite !decide_False.
  - unfold session. rewrite lookup_assign. by rewrite decide_False.
Qed.

End auth_properties.

Lemma callbacks_frame_witness :
  let token : gmap string json :=
    {[ "sub" := JString "user1"; "accessToken" := JString "old" ]} in
  let account := Auth.mkAccount (Some "fresh") None in
  Auth.jwt token (Some account) !! "sub" = token !! "sub"
  ∧ Auth.session ∅ token !! "sub" = (∅ : gmap string json) !! "sub"
  ∧ Auth.jwt token None = token.
Proof. intros token account. by apply callbacks_frame. Defined.

(** * The handlers of the diary form *)

Section form_properties.

Import Text DiaryEntryForm.

Variable api : Api.

Ltac step :=
  unfold tryFinally, requireOk, send, lift, setEntry, setIsAnalyzing,
    setSentiment, setRecommendations, setSelectedSong, setIsSaving, update,
    mbind, act_bind, mret, act_ret; simpl.

(** X26. [handleAnalyze] never touches the text, the selected song or the
    saving flag, whatever the endpoints answer: a song picked for an
    earlier analysis stays selected after a new one. When the text is not
    blank the analysing flag is off once the handler is done, and at most
    two requests were sent, the first to the sentiment endpoint with the
    text as typed. *)
Theorem handleAnalyze_frame st :
  let st' := (handleAnalyze api st).1 in
  let log := (handleAnalyze api st).2 in
  entry st' = entry st ∧ selectedSong st' = selectedSong st
  ∧ isSaving st' = isSaving st
  ∧ (blank (entry st) = true → st' = st ∧ log = [])
  ∧ (blank (entry st) = false →
     isAnalyzing st' = false
     ∧ ([PostSentiment (entry st)] `prefix_of` log) ∧ (length log ≤ 2)%nat).
Proof.
  unfold handleAnalyze. destruct (blank (entry st)) eqn:Hb; simpl.
  { repeat split; done. }
  step.
  destruct (sentimentEndpoint api (entry st)) as [r|e]; simpl.
  2: { repeat split; try done. lia. }
  destruct (ok r); simpl.
  2: { repeat split; try done. lia. }
  destruct (body r) as [sr|e]; simpl.
  2: { repeat split; try done. lia. }
  assert ([PostSentiment (entry st)]
          `prefix_of` [PostSentiment (entry st);
                       PostRecommendations (sentiment sr) (mood sr)]) as Hp
    by (by eexists [_]).
  destruct (recommendationsEndpoint api (sentiment sr) (mood sr)) as [r2|e]; simpl.
  2: { repeat split; done. }
  destruct (ok r2); simpl.
  2: { repeat split; done. }
  destruct (body r2) as [songs|e]; simpl; repeat split; done.
Qed.

(** X27. After [handleAnalyze] has run on a text that is not blank, the
    recommendations shown belong to the analysis shown: a list that is not
    empty is the [tracks] the recommendations endpoint answered, [ok], for
    the sentiment and the mood of the analysis the sentiment endpoint
    answered, [ok], for the text. Recommendations of an earlier analysis
    never survive. *)
Theorem handleAnalyze_recommendations st :
  blank (entry st) = false →
  recommendations (handleAnalyze api st).1 ≠ [] →
  ∃ r sr r2,
    sentimentEndpoint api (entry st) = Ok r ∧ ok r = true ∧ body r = Ok sr
    ∧ analysis (handleAnalyze api st).1 = Some sr
    ∧ recommendationsEndpoint api (sentiment sr) (mood sr) = Ok r2
    ∧ ok r2 = true
    ∧ body r2 = Ok (Some (recommendations (handleAnalyze api st).1)).
Proof.
  intros Hb. unfold handleAnalyze. rewrite Hb. step.
  destruct (sentimentEndpoint api (entry st)) as [r|e] eqn:Hr; simpl; [|done].
  destruct (ok r) eqn:Hok; simpl; [|done].
  destruct (body r) as [sr|e] eqn:Hbody; simpl; [|done].
  destruct (recommendationsEndpoint api (sentiment sr) (mood sr)) as [r2|e] eqn:Hr2;
    simpl; [|done].
  destruct (ok r2) eqn:Hok2; simpl; [|done].
  destruct (body r2) as [[songs|]|e] eqn:Hbody2; simpl; [|done|done].
  intros _. by exists r, sr, r2.
Qed.

(** X28. [handleSaveEntry] sends nothing when the text is blank or nothing
    was analysed. Otherwise it sends one request with the text as typed,
    the labels of the analysis and the selected song. If the request is
    answered [ok] the form is emptied; if it is rejected or answered with an
    error status the text, the analysis, the recommendations and the
    selection are kept. The saving flag is off at the end either way. *)
Theorem handleSaveEntry_outcome st :
  let st' := (handleSaveEntry api st).1 in
  let log := (handleSaveEntry api st).2 in
  (blank (entry st) = true ∨ analysis st = None → st' = st ∧ log = [])
  ∧ ∀ s, blank (entry st) = false → analysis st = Some s →
      let data := entryData (entry st) s (selectedSong st) in
      log = [PostEntry data]
      ∧ st' = (if accepted (entriesEndpoint api data)
               then mkFormState "" (isAnalyzing st) None [] None false
               else mkFormState (entry st) (isAnalyzing st) (analysis st)
                      (recommendations st) (selectedSong st) false).
Proof.
  unfold handleSaveEntry. split.
  - intros [-> | ->]; [by split|]. by destruct (blank (entry st)); split.
  - intros s -> Ha. rewrite Ha. step.
    destruct (entriesEndpoint api _) as [r|e]; simpl;
      [destruct (ok r); simpl|]; by rewrite ?Ha.
Qed.

End form_properties.

Lemma handleAnalyze_recommendations_witness :
  ∃ r sr r2,
    DiaryEntryForm.sentimentEndpoint sampleApi "Sunny day" = Ok r
    ∧ ok r = true ∧ body r = Ok sr
    ∧ DiaryEntryForm.analysis (DiaryEntryForm.handleAnalyze sampleApi sampleDraft).1
      = Some sr
    ∧ DiaryEntryForm.recommendationsEndpoint sampleApi
        (DiaryEntryForm.sentiment sr) (DiaryEntryForm.mood sr) = Ok r2
    ∧ ok r2 = true
    ∧ body r2
      = Ok (Some (DiaryEntryForm.recommendations
                    (DiaryEntryForm.handleAnalyze sampleApi sampleDraft).1)).
Proof.
  apply (handleAnalyze_recommendations sampleApi sampleDraft);
    [reflexivity | vm_compute; discriminate].
Defined.

(** * The list of recent entries *)

Section recent_entries.

Import RecentEntriesView.

Context {DiaryEntry : Type}.

(** X29. Once [fetchEntries] is done the spinner is gone, whatever the
    outcome. A load that fails, by a rejected request, an error status or
    an unreadable body, leaves the entries as they were, so that on a
    freshly mounted component a failed load shows the same "no entries"
    message as an empty diary. *)
Theorem fetchEntries_failure_looks_empty
    (outcome : result (response (list DiaryEntry))) (st : ViewState DiaryEntry) :
  render _ (fetchEntries _ outcome st) ≠ Spinner _
  ∧ ((∀ r rows, outcome = Ok r → ok r = true → body r ≠ Ok rows) →
     entries _ (fetchEntries _ outcome st) = entries _ st
     ∧ render _ (fetchEntries _ outcome (initial _))
       = render _ (fetchEntries _ (Ok (mkResponse true 200 (Ok []))) (initial _))).
Proof.
  split.
  - unfold render, fetchEntries. simpl. by destruct (entries _ _).
  - intros Hfail. unfold fetchEntries. simpl.
    destruct outcome as [r|e]; simpl; [|done].
    destruct (ok r) eqn:Hok; simpl; [|done].
    destruct (body r) as [rows|e] eqn:Hb; simpl; [|done].
    by destruct (Hfail r rows).
Qed.

End recent_entries.

(** * The two pages *)

Section pages.

Import Pages.

Context {S : Type}.

(** X30. Once the session status has settled, exactly one of the two pages
    sends the browser away: the dashboard sends a visitor without session to
    the sign-in page, the sign-in page sends a visitor with a session to the
    dashboard, and neither sends anybody back. The dashboard shows the diary
    only to a visitor with a session. *)
Theorem pages_do_not_bounce (session : option S) (st : status) :
  (dashboardShowsDiary session st = true → is_Some session)
  ∧ (st ≠ Loading →
     (dashboardRedirect session st = Some "/auth/signin"
      ∧ signInRedirect session = None)
     ∨ (dashboardRedirect session st = None
        ∧ signInRedirect session = Some "/dashboard"
        ∧ dashboardShowsDiary session st = true)).
Proof.
  split.
  - destruct st, session; simpl; try done; by eexists.
  - intros Hst. destruct st; [done| |]; destruct session; simpl;
      (by left) || (right; by rewrite ?bool_decide_true by (by eexists)).
Qed.

End pages.
